(** * NASA WeatherBot: the dialogue controller and the weather-risk pipeline

    A shallow embedding of [src/app/page.tsx] (the [Home] component) and the
    properties of its risk scorer, narrative generator, location resolver,
    forecast provider and dialogue controller.

    Conventions of the embedding.
    - A JavaScript [number] is an exact rational ([Q]).  Arithmetic is the
      exact one: rounding of doubles, [NaN] and the infinities are outside
      the model, so an observation is a record of finite numbers, and a
      number prints in plain decimal notation.  Two rationals denote the
      same number when they are [==] ([Qeq]).  The bounds stated on
      computed values are weak ones ([<=]), which rounding to the nearest
      double keeps; a strict bound is stated only on a value that is
      compared, not computed.
    - A JavaScript string is a [string] of bytes, the UTF-8 form of its
      text.  [String.prototype.toLowerCase] is the runtime's: it is a
      function of the host, known on ASCII text only
      ([lowers_ascii]).
    - [Math.random()] reads a stream of draws threaded through a state monad.
    - [try]/[catch] is an error monad; a rejected promise is [Throw].
    - React state ([chatState], [messages]) is a record passed explicitly.
      The typing delays of [simulateTyping] are folded into the handler
      that starts them.  The three timers that read or write the
      conversation state (the processing of a sent text, the report and
      its follow-up) are kept in the page and fire as events of their own,
      in any order, each with the render that its closure captured. *)

From Stdlib Require Import QArith Qminmax Qabs Qround Lqa Lia ZArith.
From Stdlib Require Import String Ascii List Bool DecimalString Morphisms.
Import ListNotations.

Open Scope Q_scope.
Open Scope string_scope.

(** ** The fragment of the JavaScript runtime the page uses *)

Module JS.

Definition number := Q.

Definition Math_max (a b : number) : number := Qmax a b.
Definition Math_min (a b : number) : number := Qmin a b.
Definition Math_abs (a : number) : number := Qabs a.

(** [Math.round]: the nearest integer, a tie going up. *)
Definition Math_round (x : number) : Z := Qfloor (x + 0.5).

(** A whole number inside a template literal. *)
Definition toString (n : Z) : string := NilZero.string_of_int (Z.to_int n).

(** [x.toFixed(1)]: the sign, then the tenths of [|x|] rounded to the
    nearest integer (a tie going up), written with one decimal. *)
Definition toFixed1 (x : number) : string :=
  let n := Qfloor (Qabs x * 10 + 0.5) in
  (if Qlt_le_dec x 0 then "-" else "")
    ++ toString (n / 10) ++ "." ++ toString (n mod 10).

Definition lower_ascii (c : ascii) : ascii :=
  let n := N_of_ascii c in
  if ((65 <=? n) && (n <=? 90))%N then ascii_of_N (n + 32) else c.

(** Lower-casing of the letters A to Z, which is what
    [String.prototype.toLowerCase] does on a text of ASCII characters. *)
Fixpoint asciiLowerCase (s : string) : string :=
  match s with
  | EmptyString => EmptyString
  | String c s' => String (lower_ascii c) (asciiLowerCase s')
  end.

(** A text of ASCII characters only. *)
Fixpoint ascii_text (s : string) : bool :=
  match s with
  | EmptyString => true
  | String c s' => (N_of_ascii c <? 128)%N && ascii_text s'
  end.

(** [s.includes(k)]: [k] occurs in [s] at some position. *)
Fixpoint includes (s k : string) : bool :=
  String.prefix k s
  || match s with
     | EmptyString => false
     | String _ s' => includes s' k
     end.

(** [xs.some(p)] and [xs.find(p)]. *)
Definition some {A} (p : A -> bool) (xs : list A) : bool := existsb p xs.
Definition find {A} (p : A -> bool) (xs : list A) : option A := List.find p xs.

(** [Math.max(...xs)] of a non-empty argument list. *)
Definition Math_max_list (x : number) (xs : list number) : number :=
  fold_left Math_max xs x.

(** [Math.floor] *)
Definition Math_floor (x : number) : Z := Qfloor x.

(** [xs[i]] inside a template or a call: [undefined] past the end. *)
Definition index (xs : list string) (i : Z) : string :=
  match i with
  | Zneg _ => "undefined"
  | _ => nth (Z.to_nat i) xs "undefined"
  end.

(** How an evaluation ends: with a value, or with a thrown error (a
    rejected promise, for an [async] function). *)
Inductive Completion (A : Type) : Type :=
| Return (a : A)
| Throw (err : string).
Arguments Return {A} a.
Arguments Throw {A} err.

(** [Math.random()] reads the next draw of a stream. *)
Record Rng := { draws : nat -> number; next : nat }.

(** The contract of [Math.random]: every draw lies in [0, 1). *)
Definition unit_interval (g : Rng) : Prop :=
  forall i, 0 <= draws g i /\ draws g i < 1.

(** Code that may draw random numbers and may throw. *)
Definition Eff (A : Type) : Type := Rng -> Completion A * Rng.

Definition ret {A} (a : A) : Eff A := fun g => (Return a, g).

Definition throw {A} (err : string) : Eff A := fun g => (Throw err, g).

Definition bind {A B} (m : Eff A) (k : A -> Eff B) : Eff B :=
  fun g =>
    match m g with
    | (Return a, g') => k a g'
    | (Throw e, g') => (Throw e, g')
    end.

(** [try { body } catch (error) { handler }] *)
Definition try_catch {A} (body : Eff A) (handler : string -> Eff A) : Eff A :=
  fun g =>
    match body g with
    | (Return a, g') => (Return a, g')
    | (Throw e, g') => handler e g'
    end.

(** [await] of an outcome that the host has already settled. *)
Definition await {A} (c : Completion A) : Eff A := fun g => (c, g).

Definition draw (g : Rng) : number * Rng :=
  (draws g (next g), {| draws := draws g; next := S (next g) |}).

Definition Math_random : Eff number :=
  fun g => let (r, g') := draw g in (Return r, g').

Definition upper_ascii (c : ascii) : ascii :=
  let n := N_of_ascii c in
  if ((97 <=? n) && (n <=? 122))%N then ascii_of_N (n - 32) else c.

(** [s.charAt(0).toUpperCase() + s.slice(1)] *)
Definition capitalize (s : string) : string :=
  match s with
  | EmptyString => EmptyString
  | String c s' => String (upper_ascii c) s'
  end.

(** [!s.trim()]: nothing but the white space and the line terminators
    that [trim] removes.  In UTF-8 these are the bytes 09 to 0D and 20,
    C2 A0 (U+00A0), E1 9A 80 (U+1680), E2 80 80 to E2 80 8A (U+2000 to
    U+200A), E2 80 A8 and A9 (U+2028, U+2029), E2 80 AF (U+202F),
    E2 81 9F (U+205F), E3 80 80 (U+3000) and EF BB BF (U+FEFF). *)
Definition is_space (c : ascii) : bool :=
  let n := N_of_ascii c in
  ((n =? 32) || ((9 <=? n) && (n <=? 13)))%N.

Definition is_space2 (c1 c2 : ascii) : bool :=
  ((N_of_ascii c1 =? 194) && (N_of_ascii c2 =? 160))%N.

Definition is_space3 (c1 c2 c3 : ascii) : bool :=
  let n1 := N_of_ascii c1 in
  let n2 := N_of_ascii c2 in
  let n3 := N_of_ascii c3 in
  (((n1 =? 225) && (n2 =? 154) && (n3 =? 128))
   || ((n1 =? 226) && (n2 =? 128)
       && (((128 <=? n3) && (n3 <=? 138)) || (n3 =? 168) || (n3 =? 169) || (n3 =? 175)))
   || ((n1 =? 226) && (n2 =? 129) && (n3 =? 159))
   || ((n1 =? 227) && (n2 =? 128) && (n3 =? 128))
   || ((n1 =? 239) && (n2 =? 187) && (n3 =? 191)))%N.

Fixpoint blank (s : string) : bool :=
  match s with
  | EmptyString => true
  | String c1 s1 =>
      if is_space c1 then blank s1
      else
        match s1 with
        | EmptyString => false
        | String c2 s2 =>
            if is_space2 c1 c2 then blank s2
            else
              match s2 with
              | EmptyString => false
              | String c3 s3 => is_space3 c1 c2 c3 && blank s3
              end
        end
  end.

End JS.

Import JS.

Notation "x <- m ;; k" := (JS.bind m (fun x => k))
  (at level 61, m at next level, right associativity).

(** ** Data model (the interfaces at the top of the page) *)

Record RiskData := {
  hot : number;
  cold : number;
  windy : number;
  wet : number;
  uncomfortable : number
}.

(** [keyof RiskData], in the order in which the fields are created. *)
Inductive RiskKey := key_hot | key_cold | key_windy | key_wet | key_uncomfortable.

Definition RiskKey_eqb (a b : RiskKey) : bool :=
  match a, b with
  | key_hot, key_hot | key_cold, key_cold | key_windy, key_windy
  | key_wet, key_wet | key_uncomfortable, key_uncomfortable => true
  | _, _ => false
  end.

(** [risks[k]] *)
Definition risk_get (r : RiskData) (k : RiskKey) : number :=
  match k with
  | key_hot => hot r
  | key_cold => cold r
  | key_windy => windy r
  | key_wet => wet r
  | key_uncomfortable => uncomfortable r
  end.

(** [risks[k] = v] *)
Definition risk_set (r : RiskData) (k : RiskKey) (v : number) : RiskData :=
  match k with
  | key_hot => {| hot := v; cold := cold r; windy := windy r; wet := wet r;
                  uncomfortable := uncomfortable r |}
  | key_cold => {| hot := hot r; cold := v; windy := windy r; wet := wet r;
                   uncomfortable := uncomfortable r |}
  | key_windy => {| hot := hot r; cold := cold r; windy := v; wet := wet r;
                    uncomfortable := uncomfortable r |}
  | key_wet => {| hot := hot r; cold := cold r; windy := windy r; wet := v;
                  uncomfortable := uncomfortable r |}
  | key_uncomfortable => {| hot := hot r; cold := cold r; windy := windy r;
                            wet := wet r; uncomfortable := v |}
  end.

(** [Object.keys(risks)] and [Object.values(risks)]. *)
Definition RiskData_keys : list RiskKey :=
  [key_hot; key_cold; key_windy; key_wet; key_uncomfortable].

Definition RiskData_values (r : RiskData) : list number :=
  map (risk_get r) RiskData_keys.

Inductive Stage := stage_event | stage_location | stage_date.

Record ChatState := {
  stage : Stage;
  eventType : option string;
  location : option string;
  date : option string
}.

Record NASAWeatherData := {
  temperature : number;
  precipitation : number;
  humidity : number;
  windSpeed : number;
  cloudCover : number;
  lat : number;
  lon : number;
  locationName : string
}.

Inductive Sender := bot | user.

(** A [Message] without its [id] and [timestamp], which come from the clock. *)
Record Message := {
  text : string;
  sender : Sender;
  riskData : option RiskData;
  dataSources : option (list string)
}.

(** ** Risk scorer *)

(** [Math.max(5, Math.min(95, x))] *)
Definition clamp (x : number) : number := Math_max 5 (Math_min 95 x).

(** The [baseRisks] literal of [calculateRisksFromRealData]. *)
Definition baseRisks (weatherData : NASAWeatherData) : RiskData := {|
  hot := clamp ((temperature weatherData - 25) * 3);
  cold := clamp ((5 - temperature weatherData) * 4);
  windy := clamp (windSpeed weatherData * 2);
  wet := clamp (precipitation weatherData * 10 + humidity weatherData * 0.3);
  uncomfortable :=
    clamp (Math_abs (temperature weatherData - 20) * 2 + humidity weatherData * 0.2)
|}.

(** A [Partial<RiskData>] literal: the keys that are present, in the order
    in which they are written. *)
Definition PartialRiskData := list (RiskKey * number).

Definition eventAdjustments : list (string * PartialRiskData) := [
  ("vacation", [(key_hot, 10); (key_wet, 15); (key_uncomfortable, 5)]);
  ("hiking", [(key_hot, 15); (key_cold, 10); (key_windy, 10); (key_wet, 20)]);
  ("fishing", [(key_windy, 20); (key_wet, 25); (key_uncomfortable, 10)]);
  ("picnic", [(key_wet, 30); (key_windy, 15); (key_hot, 10)]);
  ("sports", [(key_hot, 25); (key_wet, 20); (key_uncomfortable, 15)]);
  ("camping", [(key_cold, 20); (key_wet, 25); (key_windy, 10); (key_uncomfortable, 15)])
].

(** [table[key]] on an object literal with string keys.  (A key that is
    only inherited, as [constructor], gives a value without keys of its
    own: it adjusts nothing, as a missing key does.) *)
Fixpoint lookup {A} (table : list (string * A)) (key : string) : option A :=
  match table with
  | [] => None
  | (k, v) :: rest => if String.eqb k key then Some v else lookup rest key
  end.

(** [adjustments[k]] *)
Fixpoint partial_get (adjustments : PartialRiskData) (k : RiskKey) : option number :=
  match adjustments with
  | [] => None
  | (k', v) :: rest => if RiskKey_eqb k' k then Some v else partial_get rest k
  end.

(** [x || d] on an optional value. *)
Definition or_else {A} (x : option A) (d : A) : A :=
  match x with
  | Some v => v
  | None => d
  end.

(** The body of the [forEach] callback. *)
Definition adjust (adjustments : PartialRiskData) (risks : RiskData) (k : RiskKey)
  : RiskData :=
  risk_set risks k (clamp (risk_get risks k + or_else (partial_get adjustments k) 0)).

Definition calculateRisksFromRealData (weatherData : NASAWeatherData)
  (eventType : string) : RiskData :=
  let adjustments := or_else (lookup eventAdjustments eventType) [] in
  fold_left (adjust adjustments) (map fst adjustments) (baseRisks weatherData).

(** ** Narrative generator *)

Record GeminiAnalysis := {
  risks : RiskData;
  analysis : string;
  sources : list string   (* the [dataSources] field *)
}.

(** The line feed of a template literal. *)
Definition nl : string := String (ascii_of_nat 10) EmptyString.

Definition riskLabels (k : RiskKey) : string :=
  match k with
  | key_hot => "extreme heat"
  | key_cold => "freezing temperatures"
  | key_windy => "high winds"
  | key_wet => "heavy precipitation"
  | key_uncomfortable => "uncomfortable conditions"
  end.

(** [riskLabels[maxRiskKey]] inside a template literal. *)
Definition label_of (k : option RiskKey) : string :=
  match k with
  | Some k => riskLabels k
  | None => "undefined"
  end.

(** [Math.max(...Object.values(risks))]; the list of values is never
    empty. *)
Definition maxRiskOf (risks : RiskData) : number :=
  match RiskData_values risks with
  | [] => 0
  | v :: vs => Math_max_list v vs
  end.

(** [Object.keys(risks).find(key => risks[key] === maxRisk)] *)
Definition maxRiskKeyOf (risks : RiskData) : option RiskKey :=
  JS.find (fun key => Qeq_bool (risk_get risks key) (maxRiskOf risks)) RiskData_keys.

Definition analysis_header (weatherData : NASAWeatherData) (date : string) : string :=
  "Based on NASA satellite data and atmospheric analysis for "
    ++ locationName weatherData ++ " on " ++ date ++ ":" ++ nl ++ nl.

(** The three branches of the [if (maxRisk < 30) ... else if (maxRisk < 60)]. *)
Definition analysis_excellent (weatherData : NASAWeatherData) (eventType : string)
  : string :=
  "✅ Excellent conditions for " ++ eventType
    ++ "! All weather parameters are within optimal ranges. "
    ++ "Temperature: " ++ toString (Math_round (temperature weatherData))
    ++ "°C, Wind: " ++ toString (Math_round (windSpeed weatherData))
    ++ " km/h, Precipitation: " ++ toFixed1 (precipitation weatherData) ++ "mm.".

Definition analysis_moderate (weatherData : NASAWeatherData) (eventType : string)
  (maxRisk : number) (maxRiskKey : option RiskKey) : string :=
  "⚠️ Moderate risk of " ++ label_of maxRiskKey ++ " for " ++ eventType ++ ". "
    ++ "Consider preparing for " ++ toString (Math_round maxRisk)
    ++ "% chance of challenging conditions. "
    ++ "Current forecast: " ++ toString (Math_round (temperature weatherData))
    ++ "°C, " ++ toString (Math_round (windSpeed weatherData)) ++ " km/h winds.".

Definition analysis_high (weatherData : NASAWeatherData) (eventType : string)
  (maxRisk : number) (maxRiskKey : option RiskKey) : string :=
  "🚨 High risk of " ++ label_of maxRiskKey ++ " for " ++ eventType ++ "! "
    ++ "Strongly consider rescheduling due to " ++ toString (Math_round maxRisk)
    ++ "% chance of adverse conditions. "
    ++ "Forecast shows " ++ toString (Math_round (temperature weatherData))
    ++ "°C with " ++ toFixed1 (precipitation weatherData) ++ "mm precipitation.".

Definition simulateGeminiAnalysis (weatherData : NASAWeatherData)
  (eventType : string) (date : string) : GeminiAnalysis :=
  let risks := calculateRisksFromRealData weatherData eventType in
  let dataSources := [
    "NASA Global Forecast System (GFS)";
    "Open-Meteo Weather API";
    "Historical Climate Patterns";
    "Satellite Atmospheric Analysis"
  ] in
  let maxRisk := maxRiskOf risks in
  let maxRiskKey := maxRiskKeyOf risks in
  let analysis :=
    analysis_header weatherData date
      ++ (if Qlt_le_dec maxRisk 30 then analysis_excellent weatherData eventType
          else if Qlt_le_dec maxRisk 60
               then analysis_moderate weatherData eventType maxRisk maxRiskKey
               else analysis_high weatherData eventType maxRisk maxRiskKey) in
  {| risks := risks; analysis := analysis; sources := dataSources |}.

(** [analyzeWithGemini]: the simulated analysis, tried again if it throws. *)
Definition analyzeWithGemini (weatherData : NASAWeatherData) (eventType : string)
  (date : string) : Eff GeminiAnalysis :=
  try_catch
    (ret (simulateGeminiAnalysis weatherData eventType date))
    (fun _ => ret (simulateGeminiAnalysis weatherData eventType date)).

(** ** The host: the two web services, the calendar and the case mapping *)

(** One entry of [data.results] of the geocoding service. *)
Record GeoResult := {
  latitude : number;
  longitude : number;
  result_name : string   (* the [name] field *)
}.

(** The first element of each array of [data.daily], each of them a
    number, as the page's types have it.  (An answer whose arrays hold
    [null] is not a [Daily]: on such an answer the page fails later, at
    [toFixed], and what is proved of the wired pipeline is proved for
    hosts that answer with numbers.) *)
Record Daily := {
  temperature_2m_max : number;
  temperature_2m_min : number;
  precipitation_sum : number;
  wind_speed_10m_max : number;
  relative_humidity_2m_mean : number;
  cloud_cover_mean : number
}.

(** What [fetch] followed by [response.json()] gives: [Throw] when either
    rejects or the body cannot be read as expected, otherwise the [results]
    (resp. [daily]) property of the body, [None] when it is missing.
    [getMonth date] is [new Date(date).getMonth()], [None] standing for
    [NaN].  [toLowerCase s] is [s.toLowerCase()], the case mapping of the
    runtime. *)
Record Host := {
  geocoding : string -> Completion (option (list GeoResult));
  forecast : number -> number -> string -> Completion (option Daily);
  getMonth : string -> option Z;
  toLowerCase : string -> string
}.

(** What is known of the runtime's case mapping: on a text of ASCII
    characters it lower-cases the letters A to Z and keeps the rest. *)
Definition lowers_ascii (host : Host) : Prop :=
  forall s, ascii_text s = true -> toLowerCase host s = asciiLowerCase s.

(** ** Location resolver *)

Module Coords.
Record t := { lat : number; lon : number; name : string }.
End Coords.

Definition fallbackCities : list (string * Coords.t) := [
  ("new york", {| Coords.lat := 40.7128; Coords.lon := -74.0060; Coords.name := "New York" |});
  ("london", {| Coords.lat := 51.5074; Coords.lon := -0.1278; Coords.name := "London" |});
  ("tokyo", {| Coords.lat := 35.6762; Coords.lon := 139.6503; Coords.name := "Tokyo" |});
  ("paris", {| Coords.lat := 48.8566; Coords.lon := 2.3522; Coords.name := "Paris" |});
  ("sydney", {| Coords.lat := -33.8688; Coords.lon := 151.2093; Coords.name := "Sydney" |});
  ("mumbai", {| Coords.lat := 19.0760; Coords.lon := 72.8777; Coords.name := "Mumbai" |})
].

(** The caller passes [chatState.location!]: a string, or [null] ([None])
    when the field is unset; [null] is sent to the service as the text
    [null], and [null.toLowerCase()] throws inside the handler. *)
Definition getCoordinatesFromLocation (host : Host) (location : option string)
  : Eff Coords.t :=
  try_catch
    (data <- await (geocoding host (or_else location "null")) ;;
     match data with
     | Some (first :: _) =>
         ret {| Coords.lat := latitude first; Coords.lon := longitude first;
                Coords.name := result_name first |}
     | _ => throw "Location not found"
     end)
    (fun _ =>
       match location with
       | None => throw "TypeError"
       | Some location =>
           let normalizedLocation := toLowerCase host location in
           match JS.find (fun entry => includes normalizedLocation (fst entry))
                         fallbackCities with
           | Some (_, coords) => ret coords
           | None =>
               ret {| Coords.lat := 40.7128; Coords.lon := -74.0060;
                      Coords.name := "New York" |}
           end
       end).

(** ** Forecast provider *)

(** [month >= n] and [month <= n]; both are false on [NaN]. *)
Definition month_ge (month : option Z) (n : Z) : bool :=
  match month with
  | Some m => (n <=? m)%Z
  | None => false
  end.

Definition month_le (month : option Z) (n : Z) : bool :=
  match month with
  | Some m => (m <=? n)%Z
  | None => false
  end.

Definition generateFallbackData (host : Host) (lat lon : number) (date : string)
  : Eff NASAWeatherData :=
  let month := getMonth host date in
  let isNorthern := if Qlt_le_dec 0 lat then true else false in
  let tempBase := 20 in
  let precipitationBase := 2 in
  let tempBase :=
    if isNorthern then
      let tempBase := if month_ge month 11 || month_le month 2 then 5 else tempBase in
      let tempBase := if month_ge month 3 && month_le month 5 then 15 else tempBase in
      let tempBase := if month_ge month 6 && month_le month 8 then 25 else tempBase in
      let tempBase := if month_ge month 9 && month_le month 10 then 18 else tempBase in
      tempBase
    else
      let tempBase := if month_ge month 11 || month_le month 2 then 25 else tempBase in
      let tempBase := if month_ge month 3 && month_le month 5 then 18 else tempBase in
      let tempBase := if month_ge month 6 && month_le month 8 then 5 else tempBase in
      let tempBase := if month_ge month 9 && month_le month 10 then 15 else tempBase in
      tempBase in
  r1 <- Math_random ;;
  let tempVariation := (r1 - 0.5) * 10 in
  r2 <- Math_random ;;
  let precipVariation := r2 * 5 in
  r3 <- Math_random ;;
  r4 <- Math_random ;;
  r5 <- Math_random ;;
  ret {| temperature := tempBase + tempVariation;
         precipitation := Math_max 0 (precipitationBase + precipVariation);
         humidity := 60 + (r3 - 0.5) * 30;
         windSpeed := 5 + r4 * 15;
         cloudCover := r5 * 100;
         lat := lat;
         lon := lon;
         locationName := "Estimated Data" |}.

Definition getNASAWeatherData (host : Host) (lat lon : number) (date : string)
  : Eff NASAWeatherData :=
  try_catch
    (data <- await (forecast host lat lon date) ;;
     match data with
     | Some daily =>
         ret {| temperature := (temperature_2m_max daily + temperature_2m_min daily) / 2;
                precipitation := precipitation_sum daily;
                humidity := relative_humidity_2m_mean daily;
                windSpeed := wind_speed_10m_max daily;
                cloudCover := cloud_cover_mean daily;
                lat := lat;
                lon := lon;
                locationName := "Current Location" |}
     | None => throw "No weather data available"
     end)
    (fun _ => generateFallbackData host lat lon date).

(** ** The page: React state, timers and handlers *)

(** The three timers that read or write the conversation state.  The
    processing of a sent text (line 377) runs the [processMessage] of the
    render in which the text was sent: it carries the [chatState] of that
    render.  The report (line 333) runs the [generateRealWeatherReport] of
    the same render: it carries its [location] and [eventType].  The
    follow-up of a report (line 357) carries nothing. *)
Inductive Timer :=
| timer_process (render : ChatState) (message : string)
| timer_report (location eventType : option string) (date : string)
| timer_followup.

Record Page := {
  chatState : ChatState;
  messages : list Message;
  random : Rng;
  timers : list Timer
}.

Definition initialChatState : ChatState :=
  {| stage := stage_event; eventType := None; location := None; date := None |}.

Definition welcome : string :=
  "Hey! 👋 I'm WeatherBot, powered by real NASA Earth observation data. I can predict if adverse weather might ruin your outdoor plans!"
    ++ nl ++ nl
    ++ "I'll analyze chances of extreme heat, cold, wind, rain, and uncomfortable conditions using satellite data and AI analysis."
    ++ nl ++ nl
    ++ "What kind of outdoor adventure are you planning?".

Definition initialMessages : list Message :=
  [ {| text := welcome; sender := bot; riskData := None; dataSources := None |} ].

Definition initialPage (g : Rng) : Page :=
  {| chatState := initialChatState; messages := initialMessages; random := g;
     timers := [] |}.

(** [value], [emoji], [label] of the quick-reply buttons. *)
Definition eventTypes : list (string * string * string) := [
  ("vacation", "🏖️", "Beach Day");
  ("hiking", "🥾", "Hiking");
  ("fishing", "🎣", "Fishing");
  ("picnic", "🧺", "Picnic");
  ("sports", "⚽", "Sports");
  ("camping", "⛺", "Camping")
].

Definition eventMap : list (string * list string) := [
  ("vacation", ["vacation"; "holiday"; "beach"; "trip"]);
  ("hiking", ["hike"; "hiking"; "trail"; "trek"; "mountain"]);
  ("fishing", ["fish"; "fishing"; "angling"]);
  ("picnic", ["picnic"; "outdoor meal"; "park"]);
  ("sports", ["sport"; "game"; "match"; "athletic"; "exercise"]);
  ("camping", ["camp"; "camping"; "tent"])
].

Definition addMessage (text : string) (sender : Sender) (riskData : option RiskData)
  (dataSources : option (list string)) (p : Page) : Page :=
  {| chatState := chatState p;
     messages := messages p ++ [ {| text := text; sender := sender;
                                    riskData := riskData; dataSources := dataSources |} ];
     random := random p;
     timers := timers p |}.

Definition setChatState (f : ChatState -> ChatState) (p : Page) : Page :=
  {| chatState := f (chatState p); messages := messages p; random := random p;
     timers := timers p |}.

Definition setMessages (ms : list Message) (p : Page) : Page :=
  {| chatState := chatState p; messages := ms; random := random p;
     timers := timers p |}.

Definition setRandom (g : Rng) (p : Page) : Page :=
  {| chatState := chatState p; messages := messages p; random := g;
     timers := timers p |}.

Definition setTimeout (t : Timer) (p : Page) : Page :=
  {| chatState := chatState p; messages := messages p; random := random p;
     timers := timers p ++ [t] |}.

(** [addMessage(responses[Math.floor(Math.random() * responses.length)], 'bot')] *)
Definition addRandomResponse (responses : list string) (p : Page) : Page :=
  let (r, g) := draw (random p) in
  addMessage (index responses (Math_floor (r * inject_Z (Z.of_nat (List.length responses)))))
    bot None None (setRandom g p).

(** The pair of [eventMap] that the [for ... of] loop returns on. *)
Definition matchEvent (lowerMsg : string) : option (string * list string) :=
  JS.find (fun entry => JS.some (fun keyword => includes lowerMsg keyword) (snd entry))
          eventMap.

(** [processMessage] reads [chatState] in the render that defined it and
    writes through [setChatState(prev => ...)], that is, on the state of
    the page at the time it runs. *)
Definition processMessage (host : Host) (render : ChatState) (message : string)
  (p : Page) : Page :=
  let lowerMsg := toLowerCase host message in
  match stage render with
  | stage_event =>
      match matchEvent lowerMsg with
      | Some (event, _) =>
          let p := setChatState (fun prev =>
                     {| stage := stage_location; eventType := Some event;
                        location := location prev; date := date prev |}) p in
          addRandomResponse [
            "Awesome! " ++ capitalize event
              ++ " is amazing! Now, where's this happening? Drop me a city name!";
            "Nice choice! " ++ capitalize event ++ " sounds fun! What's the location?";
            "Perfect! I love " ++ event ++ "! Where are you heading?"
          ] p
      | None =>
          addMessage
            "Hmm, I'm not quite sure about that activity. Try: vacation, hiking, fishing, picnic, sports, or camping!"
            bot None None p
      end
  | stage_location =>
      let p := setChatState (fun prev =>
                 {| stage := stage_date; eventType := eventType prev;
                    location := Some message; date := date prev |}) p in
      addRandomResponse [
        "Got it! " ++ message ++ " it is! When's the big day? Use format YYYY-MM-DD";
        message ++ " - sounds great! What date are we looking at? (YYYY-MM-DD)";
        "Perfect! I've got " ++ message ++ " locked in. Now, what's the date? (YYYY-MM-DD)"
      ] p
  | stage_date =>
      let p := setChatState (fun prev =>
                 {| stage := stage prev; eventType := eventType prev;
                    location := location prev; date := Some message |}) p in
      let p := addMessage "🛰️ Accessing NASA satellite data and atmospheric models..."
                 bot None None p in
      setTimeout (timer_report (location render) (eventType render) message) p
  end.

(** [handleSend] appends the user's text and leaves its processing to a
    timer of 300 ms, which keeps the render of the send. *)
Definition handleSend (input : string) (p : Page) : Page :=
  if blank input then p
  else setTimeout (timer_process (chatState p) input)
         (addMessage input user None None p).

(** A send that is served before anything else happens: the text is
    appended and processed at once, in the render of the send. *)
Definition sendAndProcess (host : Host) (input : string) (p : Page) : Page :=
  if blank input then p
  else processMessage host (chatState p) input (addMessage input user None None p).

Definition handleQuickReply (host : Host) (event label : string) (p : Page) : Page :=
  let p := addMessage ("I'm planning " ++ toLowerCase host label) user None None p in
  let p := setChatState (fun prev =>
             {| stage := stage_location; eventType := Some event;
                location := location prev; date := date prev |}) p in
  addRandomResponse [
    label ++ " sounds amazing! Where's this adventure taking place?";
    "Great choice! What's the location for your " ++ toLowerCase host label ++ "?";
    "Perfect! Where are you heading for this " ++ toLowerCase host label ++ "?"
  ] p.

Definition startNewChat (p : Page) : Page :=
  setChatState (fun _ => initialChatState) (setMessages initialMessages p).

(** The condition under which the quick-reply buttons are rendered (line
    510): the stage is ['event'], on a bot message that carries the id of
    the last message.  Ids are not modelled, so the stage test alone is
    kept; it allows every click the page allows. *)
Definition quickRepliesShown (p : Page) : bool :=
  match stage (chatState p) with
  | stage_event => true
  | _ => false
  end.

(** *** The report

    The three awaited calls of [generateRealWeatherReport] are taken as
    parameters, so that the handler is described for whatever they do,
    a rejection included. *)

Section Report.

Variable host : Host.
Variable resolve : option string -> Eff Coords.t.
Variable fetchWeather : number -> number -> string -> Eff NASAWeatherData.
Variable analyze : NASAWeatherData -> string -> string -> Eff GeminiAnalysis.

(** The text of the report message (line 353). *)
Definition reportText (weatherData : NASAWeatherData) (result : GeminiAnalysis)
  : string :=
  analysis result ++ nl ++ nl ++ "**Real-time Data:**" ++ nl
    ++ "• Temperature: " ++ toString (Math_round (temperature weatherData)) ++ "°C" ++ nl
    ++ "• Wind Speed: " ++ toString (Math_round (windSpeed weatherData)) ++ " km/h" ++ nl
    ++ "• Precipitation: " ++ toFixed1 (precipitation weatherData) ++ "mm" ++ nl
    ++ "• Humidity: " ++ toString (Math_round (humidity weatherData)) ++ "%" ++ nl
    ++ "• Cloud Cover: " ++ toString (Math_round (cloudCover weatherData)) ++ "%".

(** The awaited calls of the [try] block; [chatState.eventType!] reads
    as the text [null] when the field is unset. *)
Definition reportPipeline (location eventType : option string) (date : string)
  : Eff (NASAWeatherData * GeminiAnalysis) :=
  coords <- resolve location ;;
  weatherData <- fetchWeather (Coords.lat coords) (Coords.lon coords) date ;;
  analysis <- analyze weatherData (or_else eventType "null") date ;;
  ret (weatherData, analysis).

Definition reportError : string :=
  "I encountered an issue accessing real-time NASA data. Please try again in a moment.".

Definition reportConnecting : string :=
  "📡 Connecting to NASA data sources and analyzing patterns...".

Definition generateRealWeatherReport (location eventType : option string)
  (date : string) (p : Page) : Page :=
  let p := addMessage reportConnecting bot None None p in
  match reportPipeline location eventType date (random p) with
  | (Return (weatherData, analysis), g) =>
      let report := reportText weatherData analysis in
      let p := addMessage report bot (Some (risks analysis)) (Some (sources analysis))
                 (setRandom g p) in
      setTimeout timer_followup p
  | (Throw _, g) =>
      addMessage reportError bot None None (setRandom g p)
  end.

(** The callback of the follow-up timer (lines 358-361). *)
Definition reportFollowUp (p : Page) : Page :=
  let p := addMessage
             "Want to check another event with real NASA data? Just tell me what you're planning!"
             bot None None p in
  setChatState (fun _ => initialChatState) p.

Definition fire (t : Timer) (p : Page) : Page :=
  match t with
  | timer_process render message => processMessage host render message p
  | timer_report location eventType date =>
      generateRealWeatherReport location eventType date p
  | timer_followup => reportFollowUp p
  end.

(** Remove one pending timer: the one that fires. *)
Fixpoint removeTimer (n : nat) (ts : list Timer) : list Timer :=
  match n, ts with
  | _, [] => []
  | O, _ :: rest => rest
  | S n, t :: rest => t :: removeTimer n rest
  end.

Definition clearTimer (n : nat) (p : Page) : Page :=
  {| chatState := chatState p; messages := messages p; random := random p;
     timers := removeTimer n (timers p) |}.

(** What can happen to the page: the user sends a text, clicks a
    quick-reply button that is shown, starts a new chat, or a pending
    timer fires. *)
Inductive step : Page -> Page -> Prop :=
| step_send input p :
    step p (handleSend input p)
| step_quick value emoji label p :
    quickRepliesShown p = true ->
    In (value, emoji, label) eventTypes ->
    step p (handleQuickReply host value label p)
| step_new p :
    step p (startNewChat p)
| step_timer n t p :
    nth_error (timers p) n = Some t ->
    step p (fire t (clearTimer n p)).

Inductive reachable (g : Rng) : Page -> Prop :=
| reach_init : reachable g (initialPage g)
| reach_step p p' : reachable g p -> step p p' -> reachable g p'.

(** The same events when the turns are served one at a time: every sent
    text is processed before anything else happens, so that no processing
    is ever pending. *)
Inductive turn : Page -> Page -> Prop :=
| turn_send input p :
    turn p (sendAndProcess host input p)
| turn_quick value emoji label p :
    quickRepliesShown p = true ->
    In (value, emoji, label) eventTypes ->
    turn p (handleQuickReply host value label p)
| turn_new p :
    turn p (startNewChat p)
| turn_timer n t p :
    nth_error (timers p) n = Some t ->
    turn p (fire t (clearTimer n p)).

Inductive served (g : Rng) : Page -> Prop :=
| served_init : served g (initialPage g)
| served_turn p p' : served g p -> turn p p' -> served g p'.

End Report.

(** The page as it is wired: the three calls are the resolver, the
    provider and the analysis of this file. *)
Definition pageStep (host : Host) : Page -> Page -> Prop :=
  step host (getCoordinatesFromLocation host) (getNASAWeatherData host)
       analyzeWithGemini.

Definition pageReachable (host : Host) (g : Rng) : Page -> Prop :=
  reachable host (getCoordinatesFromLocation host) (getNASAWeatherData host)
            analyzeWithGemini g.

Definition pageServed (host : Host) (g : Rng) : Page -> Prop :=
  served host (getCoordinatesFromLocation host) (getNASAWeatherData host)
         analyzeWithGemini g.

(** ** Vocabulary of the properties *)

(** A percentage of a [RiskProfile]. *)
Definition in_range (x : number) : Prop := 5 <= x /\ x <= 95.

Definition risks_in_range (r : RiskData) : Prop :=
  forall k, in_range (risk_get r k).

Definition risk_sum (r : RiskData) : number :=
  hot r + cold r + windy r + wet r + uncomfortable r.

(** The same observation: the same numbers, the same label. *)
Definition same_observation (a b : NASAWeatherData) : Prop :=
  temperature a == temperature b /\ precipitation a == precipitation b
  /\ humidity a == humidity b /\ windSpeed a == windSpeed b
  /\ cloudCover a == cloudCover b /\ lat a == lat b /\ lon a == lon b
  /\ locationName a = locationName b.

Definition same_risks (a b : RiskData) : Prop :=
  forall k, risk_get a k == risk_get b k.

(** Two observations that differ at most in wind speed, resp. precipitation. *)
Definition same_but_wind (a b : NASAWeatherData) : Prop :=
  temperature a == temperature b /\ precipitation a == precipitation b
  /\ humidity a == humidity b /\ cloudCover a == cloudCover b
  /\ lat a == lat b /\ lon a == lon b /\ locationName a = locationName b.

Definition same_but_precipitation (a b : NASAWeatherData) : Prop :=
  temperature a == temperature b /\ humidity a == humidity b
  /\ windSpeed a == windSpeed b /\ cloudCover a == cloudCover b
  /\ lat a == lat b /\ lon a == lon b /\ locationName a = locationName b.

(** *** The scoring algorithm, as the specification words it *)

Module Spec.

(** Clamping to [[5, 95]]. *)
Definition clamp (x : number) : number :=
  if Qlt_le_dec x 5 then 5 else if Qlt_le_dec 95 x then 95 else x.

(** Step 1: the five base scores. *)
Definition base (o : NASAWeatherData) (k : RiskKey) : number :=
  match k with
  | key_hot => clamp ((temperature o - 25) * 3)
  | key_cold => clamp ((5 - temperature o) * 4)
  | key_windy => clamp (windSpeed o * 2)
  | key_wet => clamp (precipitation o * 10 + humidity o * 0.3)
  | key_uncomfortable => clamp (Qabs (temperature o - 20) * 2 + humidity o * 0.2)
  end.

(** Step 2: a category listed in the activity's vector gets its
    adjustment added and is clamped again; the others keep their base. *)
Definition score (vector : string -> RiskKey -> option number)
  (o : NASAWeatherData) (activity : string) (k : RiskKey) : number :=
  match vector activity k with
  | Some a => clamp (base o k + a)
  | None => base o k
  end.

(** The two vectors the specification spells out. *)
Definition hiking (k : RiskKey) : option number :=
  match k with
  | key_hot => Some 15
  | key_cold => Some 10
  | key_windy => Some 10
  | key_wet => Some 20
  | key_uncomfortable => None
  end.

Definition picnic (k : RiskKey) : option number :=
  match k with
  | key_wet => Some 30
  | key_windy => Some 15
  | key_hot => Some 10
  | _ => None
  end.

End Spec.

(** The adjustment table of the code, read as a vector per activity. *)
Definition adjustmentOf (activity : string) (k : RiskKey) : option number :=
  partial_get (or_else (lookup eventAdjustments activity) []) k.

(** [k] occurs in [s]. *)
Definition is_substring (k s : string) : Prop :=
  exists before after, s = before ++ k ++ after.

(** [s] begins with [k]. *)
Definition starts_with (k s : string) : Prop := exists after, s = k ++ after.

(** Every piece occurs in the text. *)
Definition renders (text : string) (pieces : list string) : Prop :=
  forall piece, In piece pieces -> is_substring piece text.

(** The figures of a narrative, as they are printed. *)
Definition shown_temperature (o : NASAWeatherData) : string :=
  toString (Math_round (temperature o)) ++ "°C".

Definition shown_wind (o : NASAWeatherData) : string :=
  toString (Math_round (windSpeed o)) ++ " km/h".

Definition shown_precipitation (o : NASAWeatherData) : string :=
  toFixed1 (precipitation o) ++ "mm".

Definition shown_percentage (maxRisk : number) : string :=
  toString (Math_round maxRisk) ++ "%".

(** The narrative prints the label of the dominant category, its
    percentage and the three figures, whatever the band. *)
Definition rendered_in_every_band (o : NASAWeatherData) (activity date : string)
  : Prop :=
  let result := simulateGeminiAnalysis o activity date in
  renders (analysis result)
    [ label_of (maxRiskKeyOf (risks result));
      shown_percentage (maxRiskOf (risks result));
      shown_temperature o; shown_wind o; shown_precipitation o ].

(** [key] is the first key of [table], in the order of declaration, that
    has a keyword occurring in [s]. *)
Definition first_match (table : list (string * list string)) (s key : string) : Prop :=
  exists earlier keywords later,
    table = (earlier ++ (key, keywords) :: later)%list
    /\ (exists k, In k keywords /\ is_substring k s)
    /\ (forall key' keywords' k,
          In (key', keywords') earlier -> In k keywords' -> ~ is_substring k s).

Definition no_match (table : list (string * list string)) (s : string) : Prop :=
  forall key keywords k, In (key, keywords) table -> In k keywords -> ~ is_substring k s.

(** The position of a category in the enumeration of [RiskData]. *)
Definition key_index (k : RiskKey) : nat :=
  match k with
  | key_hot => 0
  | key_cold => 1
  | key_windy => 2
  | key_wet => 3
  | key_uncomfortable => 4
  end.

(** The live sources are unavailable: the call rejects, or the body has
    no usable data. *)
Definition geocodingUnavailable (host : Host) (location : string) : Prop :=
  match geocoding host location with
  | Return (Some (_ :: _)) => False
  | _ => True
  end.

Definition forecastUnavailable (host : Host) (lat lon : number) (date : string) : Prop :=
  match forecast host lat lon date with
  | Return (Some _) => False
  | _ => True
  end.

(** The invariant of the conversation state. *)
Definition past_activity (s : Stage) : Prop := s = stage_location \/ s = stage_date.
Definition past_location (s : Stage) : Prop := s = stage_date.

Definition invariant (c : ChatState) : Prop :=
  (eventType c <> None <-> past_activity (stage c))
  /\ (location c <> None <-> past_location (stage c)).

(** *** Sample inputs *)

Definition mildDay : NASAWeatherData :=
  {| temperature := 20; precipitation := 0; humidity := 40; windSpeed := 5;
     cloudCover := 30; lat := 48.8566; lon := 2.3522;
     locationName := "Current Location" |}.

Definition stormyDay : NASAWeatherData :=
  {| temperature := 10; precipitation := 8; humidity := 90; windSpeed := 40;
     cloudCover := 100; lat := 51.5074; lon := -0.1278;
     locationName := "Current Location" |}.

(** [mildDay] with more wind, and with rain. *)
Definition breezyDay : NASAWeatherData :=
  {| temperature := 20; precipitation := 0; humidity := 40; windSpeed := 25;
     cloudCover := 30; lat := 48.8566; lon := 2.3522;
     locationName := "Current Location" |}.

Definition rainyDay : NASAWeatherData :=
  {| temperature := 20; precipitation := 3; humidity := 40; windSpeed := 5;
     cloudCover := 30; lat := 48.8566; lon := 2.3522;
     locationName := "Current Location" |}.

(** [mildDay], with every number written as another fraction. *)
Definition mildDayAgain : NASAWeatherData :=
  {| temperature := 40 # 2; precipitation := 0 # 3; humidity := 80 # 2;
     windSpeed := 10 # 2; cloudCover := 60 # 2; lat := 97.7132 / 2;
     lon := 4.7044 / 2; locationName := "Current Location" |}.

(** A host whose two services reject every request, in July, and whose
    case mapping is the one of ASCII (the sample texts are ASCII); a
    stream whose every draw is one half; a conversation that awaits the
    date. *)
Definition offlineHost : Host :=
  {| geocoding := fun _ => Throw "Failed to fetch";
     forecast := fun _ _ _ => Throw "Failed to fetch";
     getMonth := fun _ => Some 6%Z;
     toLowerCase := asciiLowerCase |}.

Definition evenDraws : Rng := {| draws := fun _ => 0.5; next := 0 |}.

Definition awaitingDate : Page :=
  {| chatState := {| stage := stage_date; eventType := Some "picnic";
                     location := Some "Paris"; date := None |};
     messages := initialMessages;
     random := evenDraws;
     timers := [] |}.

(** An analysis that rejects. *)
Definition failingAnalysis (weatherData : NASAWeatherData) (eventType date : string)
  : Eff GeminiAnalysis :=
  throw "TypeError".

(** The user sends the date and the text is processed. *)
Definition dateProcessed : Page :=
  processMessage offlineHost (chatState awaitingDate) "2025-07-04"
    (clearTimer 0 (handleSend "2025-07-04" awaitingDate)).

(** Then the report timer fires, on a page whose analysis rejects. *)
Definition failedReport : Page :=
  fire offlineHost (getCoordinatesFromLocation offlineHost)
       (getNASAWeatherData offlineHost) failingAnalysis
       (timer_report (Some "Paris") (Some "picnic") "2025-07-04")
       (clearTimer 0 dateProcessed).

(** The same turn on the page as it is wired: the report, then its
    follow-up. *)
Definition shownReport : Page :=
  fire offlineHost (getCoordinatesFromLocation offlineHost)
       (getNASAWeatherData offlineHost) analyzeWithGemini
       (timer_report (Some "Paris") (Some "picnic") "2025-07-04")
       (clearTimer 0 dateProcessed).

Definition completedReport : Page :=
  fire offlineHost (getCoordinatesFromLocation offlineHost)
       (getNASAWeatherData offlineHost) analyzeWithGemini timer_followup
       (clearTimer 0 shownReport).

Definition tokyoCoords : Coords.t :=
  {| Coords.lat := 35.6762; Coords.lon := 139.6503; Coords.name := "Tokyo" |}.

Definition londonCoords : Coords.t :=
  {| Coords.lat := 51.5074; Coords.lon := -0.1278; Coords.name := "London" |}.

Definition defaultCoords : Coords.t :=
  {| Coords.lat := 40.7128; Coords.lon := -74.0060; Coords.name := "New York" |}.

(** What the [catch] block of the resolver returns for a name. *)
Definition fallbackFor (host : Host) (location : string) : Coords.t :=
  match JS.find (fun entry => includes (toLowerCase host location) (fst entry))
                fallbackCities with
  | Some (_, coords) => coords
  | None => defaultCoords
  end.

(** ** The rest of the page *)

(** [key], [icon], [label] of the five tiles under a report (lines
    486-492). *)
Definition riskTileOrder : list (RiskKey * string * string) := [
  (key_hot, "🔥", "Hot");
  (key_cold, "❄️", "Cold");
  (key_windy, "💨", "Windy");
  (key_wet, "🌧️", "Wet");
  (key_uncomfortable, "😓", "Humid")
].

(** A tile: its icon, the [Math.round(riskData[key])] printed before the
    percent sign, and its label. *)
Record Tile := {
  tile_icon : string;
  tile_value : Z;
  tile_label : string
}.

Definition riskTiles (riskData : RiskData) : list Tile :=
  map (fun condition =>
         match condition with
         | (key, icon, label) =>
             {| tile_icon := icon; tile_value := Math_round (risk_get riskData key);
                tile_label := label |}
         end)
      riskTileOrder.

(** The seasonal base of [generateFallbackData]: the value of [tempBase]
    after the eight [if]s. *)
Definition tempBaseOf (month : option Z) (isNorthern : bool) : number :=
  let tempBase := 20 in
  if isNorthern then
    let tempBase := if month_ge month 11 || month_le month 2 then 5 else tempBase in
    let tempBase := if month_ge month 3 && month_le month 5 then 15 else tempBase in
    let tempBase := if month_ge month 6 && month_le month 8 then 25 else tempBase in
    let tempBase := if month_ge month 9 && month_le month 10 then 18 else tempBase in
    tempBase
  else
    let tempBase := if month_ge month 11 || month_le month 2 then 25 else tempBase in
    let tempBase := if month_ge month 3 && month_le month 5 then 18 else tempBase in
    let tempBase := if month_ge month 6 && month_le month 8 then 5 else tempBase in
    let tempBase := if month_ge month 9 && month_le month 10 then 15 else tempBase in
    tempBase.

(** [lat > 0] *)
Definition isNorthernOf (lat : number) : bool :=
  if Qlt_le_dec 0 lat then true else false.

(** When the turns are served one at a time, no processing is pending
    and a pending report captured a location and an activity. *)
Definition timer_ready (t : Timer) : Prop :=
  match t with
  | timer_process _ _ => False
  | timer_report location eventType _ => location <> None /\ eventType <> None
  | timer_followup => True
  end.

(** In any order of the timers: a pending report captured a location, and
    so will the report of a pending processing. *)
Definition timer_located (t : Timer) : Prop :=
  match t with
  | timer_process render _ => stage render = stage_date -> location render <> None
  | timer_report location _ _ => location <> None
  | timer_followup => True
  end.

Definition page_located (p : Page) : Prop :=
  (stage (chatState p) = stage_date -> location (chatState p) <> None)
  /\ Forall timer_located (timers p).

(** The state of a page that the further invariants speak of. *)
Definition activity_known (c : ChatState) : Prop :=
  forall event, eventType c = Some event -> In event (map fst eventAdjustments).

Definition date_only_when_awaited (c : ChatState) : Prop :=
  date c <> None -> stage c = stage_date.

(** Everything the further invariants need, kept together along a run. *)
Definition page_ok (p : Page) : Prop :=
  invariant (chatState p) /\ activity_known (chatState p)
  /\ date_only_when_awaited (chatState p) /\ Forall timer_ready (timers p).

(** A whole conversation on the page as it is wired, each turn served
    before the next: a quick reply, the location, the date, the report,
    its follow-up. *)
Definition afterDate (host : Host) (g : Rng) (event label location date : string)
  : Page :=
  sendAndProcess host date
    (sendAndProcess host location (handleQuickReply host event label (initialPage g))).

Definition afterReport (host : Host) (g : Rng) (event label location date : string)
  : Page :=
  fire host (getCoordinatesFromLocation host) (getNASAWeatherData host)
       analyzeWithGemini
       (timer_report (Some location) (Some event) date)
       (clearTimer 0 (afterDate host g event label location date)).

Definition afterFollowUp (host : Host) (g : Rng) (event label location date : string)
  : Page :=
  fire host (getCoordinatesFromLocation host) (getNASAWeatherData host)
       analyzeWithGemini timer_followup
       (clearTimer 0 (afterReport host g event label location date)).

(** A race on the page as it is wired.  Two dates are sent and both
    reports are shown, so that two follow-ups are pending.  The first one
    resets the conversation; the user picks hiking and sends "Tokyo"; the
    second follow-up resets the conversation again before that text is
    processed. *)
Definition wiredFire (t : Timer) (n : nat) (p : Page) : Page :=
  fire offlineHost (getCoordinatesFromLocation offlineHost)
       (getNASAWeatherData offlineHost) analyzeWithGemini t (clearTimer n p).

Definition twoFollowUps : Page :=
  let located := {| stage := stage_location; eventType := Some "hiking";
                    location := None; date := None |} in
  let dated := {| stage := stage_date; eventType := Some "hiking";
                  location := Some "Tokyo"; date := None |} in
  let dated' := {| stage := stage_date; eventType := Some "hiking";
                   location := Some "Tokyo"; date := Some "2025-07-04" |} in
  let p := handleQuickReply offlineHost "hiking" "Hiking" (initialPage evenDraws) in
  let p := wiredFire (timer_process located "Tokyo") 0 (handleSend "Tokyo" p) in
  let p := wiredFire (timer_process dated "2025-07-04") 0 (handleSend "2025-07-04" p) in
  let p := wiredFire (timer_process dated' "2025-07-05") 1 (handleSend "2025-07-05" p) in
  let p := wiredFire (timer_report (Some "Tokyo") (Some "hiking") "2025-07-04") 0 p in
  wiredFire (timer_report (Some "Tokyo") (Some "hiking") "2025-07-05") 0 p.

Definition racedPage : Page :=
  let located := {| stage := stage_location; eventType := Some "hiking";
                    location := None; date := None |} in
  let p := wiredFire timer_followup 0 twoFollowUps in
  let p := handleSend "Tokyo" (handleQuickReply offlineHost "hiking" "Hiking" p) in
  let p := wiredFire timer_followup 0 p in
  wiredFire (timer_process located "Tokyo") 0 p.

(** The numbers of [mildDay] under the sky of Tokyo. *)
Definition cloudyTokyo : NASAWeatherData :=
  {| temperature := 20; precipitation := 0; humidity := 40; windSpeed := 5;
     cloudCover := 95; lat := 35.6762; lon := 139.6503;
     locationName := "Estimated Data" |}.

(** A host whose forecast service answers. *)
Definition liveHost : Host :=
  {| geocoding := fun _ =>
       Return (Some [ {| latitude := 48.8534; longitude := 2.3488;
                         result_name := "Paris" |} ]);
     forecast := fun _ _ _ =>
       Return (Some {| temperature_2m_max := 27; temperature_2m_min := 15;
                       precipitation_sum := 0.4; wind_speed_10m_max := 18;
                       relative_humidity_2m_mean := 55; cloud_cover_mean := 35 |});
     getMonth := fun _ => Some 6%Z;
     toLowerCase := asciiLowerCase |}.

(** ** Risk scorer: clamping *)

Lemma clamp_in_range (x : number) : in_range (clamp x).
Proof.
  unfold in_range, clamp, Math_max, Math_min. split.
  - apply Q.le_max_l.
  - apply Q.max_lub; [lra | apply Q.le_min_l].
Qed.

Lemma clamp_mono (x y : number) : x <= y -> clamp x <= clamp y.
Proof.
  intros H. unfold clamp, Math_max, Math_min.
  apply Q.max_le_compat_l, Q.min_le_compat_l, H.
Qed.

#[export] Instance clamp_proper : Proper (Qeq ==> Qeq) clamp.
Proof.
  intros x y H. unfold clamp, Math_max, Math_min. now rewrite H.
Qed.

(** The code's [Math.max(5, Math.min(95, x))] is clamping to [[5, 95]]. *)
Lemma clamp_spec (x : number) : clamp x == Spec.clamp x.
Proof.
  unfold clamp, Spec.clamp, Math_max, Math_min.
  destruct (Qlt_le_dec x 5) as [Hlo | Hlo].
  - rewrite Q.max_l; [reflexivity |].
    rewrite Q.min_r by lra. lra.
  - destruct (Qlt_le_dec 95 x) as [Hhi | Hhi].
    + rewrite Q.min_l by lra. rewrite Q.max_r; [reflexivity | lra].
    + rewrite Q.min_r by lra. rewrite Q.max_r; [reflexivity | lra].
Qed.

(** ** Risk scorer: the record and the [forEach] *)

Lemma RiskKey_eqb_eq (a b : RiskKey) : RiskKey_eqb a b = true <-> a = b.
Proof. destruct a, b; simpl; split; intro H; try reflexivity; discriminate. Qed.

Lemma RiskKey_eq_dec (a b : RiskKey) : {a = b} + {a <> b}.
Proof. decide equality. Qed.

Lemma RiskKey_eqb_refl (a : RiskKey) : RiskKey_eqb a a = true.
Proof. now apply RiskKey_eqb_eq. Qed.

Lemma risk_get_set (r : RiskData) (k k' : RiskKey) (v : number) :
  risk_get (risk_set r k v) k' = if RiskKey_eqb k k' then v else risk_get r k'.
Proof. destruct k, k'; reflexivity. Qed.

Lemma adjust_in_range adjustments r k :
  risks_in_range r -> risks_in_range (adjust adjustments r k).
Proof.
  intros H k'. unfold adjust. rewrite risk_get_set.
  destruct (RiskKey_eqb k k'); [apply clamp_in_range | apply H].
Qed.

Lemma forEach_in_range adjustments keys :
  forall r, risks_in_range r -> risks_in_range (fold_left (adjust adjustments) keys r).
Proof.
  induction keys as [| k keys IH]; intros r H; simpl; [exact H |].
  apply IH, adjust_in_range, H.
Qed.

Lemma baseRisks_in_range weatherData : risks_in_range (baseRisks weatherData).
Proof.
  intros k.
  destruct k; cbn [risk_get baseRisks hot cold windy wet uncomfortable];
    apply clamp_in_range.
Qed.

(** A key that the loop does not visit keeps its value; a key visited once
    is adjusted once. *)
Lemma forEach_untouched adjustments keys k :
  forall r, ~ In k keys ->
    risk_get (fold_left (adjust adjustments) keys r) k = risk_get r k.
Proof.
  induction keys as [| k' keys IH]; intros r Hk; simpl; [reflexivity |].
  rewrite IH by (intro; apply Hk; now right).
  unfold adjust. rewrite risk_get_set.
  destruct (RiskKey_eqb k' k) eqn:E; [| reflexivity].
  apply RiskKey_eqb_eq in E. exfalso. apply Hk. now left.
Qed.

Lemma forEach_touched adjustments keys k :
  forall r, NoDup keys -> In k keys ->
    risk_get (fold_left (adjust adjustments) keys r) k
    = clamp (risk_get r k + or_else (partial_get adjustments k) 0).
Proof.
  induction keys as [| k' keys IH]; intros r Hnd Hk; simpl; [destruct Hk |].
  inversion Hnd as [| ? ? Hnotin Hnd']; subst.
  destruct Hk as [-> | Hk].
  - rewrite forEach_untouched by exact Hnotin.
    unfold adjust. rewrite risk_get_set, RiskKey_eqb_refl. reflexivity.
  - rewrite IH by assumption.
    unfold adjust. rewrite risk_get_set.
    destruct (RiskKey_eqb k' k) eqn:E; [| reflexivity].
    apply RiskKey_eqb_eq in E. subst. contradiction.
Qed.

Lemma partial_get_none adjustments k :
  partial_get adjustments k = None <-> ~ In k (map fst adjustments).
Proof.
  induction adjustments as [| [k' v] rest IH]; simpl.
  - tauto.
  - destruct (RiskKey_eqb k' k) eqn:E.
    + apply RiskKey_eqb_eq in E. split; [discriminate | intros H; exfalso; apply H; now left].
    + assert (k' <> k) by (intro; subst; rewrite RiskKey_eqb_refl in E; discriminate).
      rewrite IH. tauto.
Qed.

(** The six tables, and the empty one of an unknown activity. *)
Lemma adjustments_cases eventType :
  In (or_else (lookup eventAdjustments eventType) [])
     ([] :: map snd eventAdjustments).
Proof.
  unfold eventAdjustments. cbn [lookup].
  repeat match goal with
         | |- context [String.eqb ?a ?b] => destruct (String.eqb a b)
         end; cbn; auto 10.
Qed.

Lemma adjustments_nodup eventType :
  NoDup (map fst (or_else (lookup eventAdjustments eventType) [])).
Proof.
  pose proof (adjustments_cases eventType) as H.
  set (adjustments := or_else (lookup eventAdjustments eventType) []) in *.
  clearbody adjustments. cbn in H.
  repeat (destruct H as [<- | H]; [cbn; repeat constructor; cbn; intuition discriminate |]).
  destruct H.
Qed.

(** Each score of the code, category by category. *)
Lemma calculateRisks_get weatherData eventType k :
  risk_get (calculateRisksFromRealData weatherData eventType) k
  = match adjustmentOf eventType k with
    | Some a => clamp (risk_get (baseRisks weatherData) k + a)
    | None => risk_get (baseRisks weatherData) k
    end.
Proof.
  unfold calculateRisksFromRealData, adjustmentOf.
  set (adjustments := or_else (lookup eventAdjustments eventType) []).
  destruct (partial_get adjustments k) as [a |] eqn:E.
  - rewrite forEach_touched.
    + now rewrite E.
    + apply adjustments_nodup.
    + destruct (in_dec RiskKey_eq_dec k (map fst adjustments)) as [Hin | Hout];
        [exact Hin |].
      apply partial_get_none in Hout. congruence.
  - apply forEach_untouched. now apply partial_get_none.
Qed.

(** Read one field of the [baseRisks] literal. *)
Ltac base_field :=
  cbn [risk_get baseRisks hot cold windy wet uncomfortable Spec.base].

Lemma baseRisks_spec weatherData k :
  risk_get (baseRisks weatherData) k == Spec.base weatherData k.
Proof. destruct k; base_field; apply clamp_spec. Qed.

Lemma baseRisks_same (a b : NASAWeatherData) :
  same_observation a b -> same_risks (baseRisks a) (baseRisks b).
Proof.
  intros (Ht & Hp & Hh & Hw & _) k.
  destruct k; base_field; apply clamp_proper; unfold Math_abs;
    rewrite ?Ht, ?Hp, ?Hh, ?Hw; reflexivity.
Qed.

Lemma calculateRisks_same (a b : NASAWeatherData) eventType :
  same_observation a b ->
  same_risks (calculateRisksFromRealData a eventType)
             (calculateRisksFromRealData b eventType).
Proof.
  intros H k. rewrite !calculateRisks_get.
  pose proof (baseRisks_same a b H k) as Hk.
  destruct (adjustmentOf eventType k); [apply clamp_proper; now rewrite Hk | exact Hk].
Qed.

(** ** Risk scorer: the claims *)

(** C1. Whatever the observation and the activity, each of the five scores
    lies in [[5, 95]], both in the base record and in the record returned
    after the adjustments; the scores are not normalised, and there are
    inputs on which they do not add up to 100. *)
Theorem risk_scores_in_range :
  (forall weatherData eventType k,
      in_range (risk_get (baseRisks weatherData) k)
      /\ in_range (risk_get (calculateRisksFromRealData weatherData eventType) k))
  /\ (exists weatherData eventType,
        ~ risk_sum (calculateRisksFromRealData weatherData eventType) == 100).
Proof.
  split.
  - intros weatherData eventType k. split.
    + apply baseRisks_in_range.
    + apply forEach_in_range, baseRisks_in_range.
  - exists {| temperature := 20; precipitation := 0; humidity := 50; windSpeed := 10;
              cloudCover := 0; lat := 0; lon := 0; locationName := "Current Location" |}.
    exists "hiking". vm_compute. discriminate.
Qed.

(** C2. The scorer computes the algorithm of the specification: the five
    clamped base scores, then, for the categories listed in the activity's
    vector and for those only, the adjustment added and the sum clamped
    again; the vectors of Hiking and Picnic are the ones the specification
    gives. *)
Theorem scorer_refines_spec :
  (forall weatherData eventType k,
      risk_get (calculateRisksFromRealData weatherData eventType) k
      == Spec.score adjustmentOf weatherData eventType k)
  /\ (forall k, adjustmentOf "hiking" k = Spec.hiking k)
  /\ (forall k, adjustmentOf "picnic" k = Spec.picnic k).
Proof.
  split; [| split].
  - intros weatherData eventType k.
    rewrite calculateRisks_get. unfold Spec.score.
    destruct (adjustmentOf eventType k) as [a |].
    + rewrite <- clamp_spec. apply clamp_proper.
      now rewrite baseRisks_spec.
    + apply baseRisks_spec.
  - intros k. destruct k; reflexivity.
  - intros k. destruct k; reflexivity.
Qed.

(** C10. For a fixed activity, the Windy score does not decrease when only
    the wind speed grows, and the Wet score does not decrease when only the
    precipitation grows. *)
Theorem scorer_monotone (eventType : string) (a b : NASAWeatherData) :
  (same_but_wind a b -> windSpeed a <= windSpeed b ->
   windy (calculateRisksFromRealData a eventType)
   <= windy (calculateRisksFromRealData b eventType))
  /\ (same_but_precipitation a b -> precipitation a <= precipitation b ->
      wet (calculateRisksFromRealData a eventType)
      <= wet (calculateRisksFromRealData b eventType)).
Proof.
  split.
  - intros _ Hle.
    change (risk_get (calculateRisksFromRealData a eventType) key_windy
            <= risk_get (calculateRisksFromRealData b eventType) key_windy).
    rewrite !calculateRisks_get.
    assert (Hbase : risk_get (baseRisks a) key_windy <= risk_get (baseRisks b) key_windy)
      by (base_field; apply clamp_mono; lra).
    destruct (adjustmentOf eventType key_windy); [apply clamp_mono; lra | exact Hbase].
  - intros (_ & Hh & _) Hle.
    change (risk_get (calculateRisksFromRealData a eventType) key_wet
            <= risk_get (calculateRisksFromRealData b eventType) key_wet).
    rewrite !calculateRisks_get.
    assert (Hbase : risk_get (baseRisks a) key_wet <= risk_get (baseRisks b) key_wet)
      by (base_field; apply clamp_mono; lra).
    destruct (adjustmentOf eventType key_wet); [apply clamp_mono; lra | exact Hbase].
Qed.

(** ** Strings *)

Lemma append_assoc (a b c : string) : (a ++ b) ++ c = a ++ (b ++ c).
Proof. induction a as [| x a IH]; simpl; [reflexivity | now rewrite IH]. Qed.

Lemma prefix_spec (k s : string) :
  String.prefix k s = true <-> exists after, s = k ++ after.
Proof.
  revert s. induction k as [| x k IH]; intros s.
  - split; [intros _; now exists s | intros _; now destruct s].
  - destruct s as [| y s]; simpl.
    + split; [discriminate | intros [after H]; discriminate].
    + destruct (ascii_dec x y) as [-> | Hne].
      * rewrite IH. split; intros [after H]; exists after; [now rewrite H | now inversion H].
      * split; [discriminate | intros [after H]; simpl in H; congruence].
Qed.

Lemma includes_spec (s k : string) : includes s k = true <-> is_substring k s.
Proof.
  unfold is_substring. induction s as [| c s IH].
  - cbn [includes]. rewrite orb_false_r, prefix_spec. split.
    + intros [after H]. now exists "", after.
    + intros (before & after & H). destruct before; [| discriminate].
      now exists after.
  - cbn [includes]. rewrite orb_true_iff, prefix_spec, IH. split.
    + intros [[after H] | (before & after & H)].
      * now exists "", after.
      * exists (String c before), after. simpl. now rewrite H.
    + intros (before & after & H). destruct before as [| x before].
      * left. now exists after.
      * right. simpl in H. inversion H. now exists before, after.
Qed.

Lemma includes_false (s k : string) : includes s k = false <-> ~ is_substring k s.
Proof.
  rewrite <- includes_spec. destruct (includes s k); split; intro H;
    congruence || (exfalso; now apply H).
Qed.

Lemma starts_nil s : starts_with "" s.
Proof. now exists s. Qed.

Lemma starts_cons c k s : starts_with k s -> starts_with (String c k) (String c s).
Proof. intros [after ->]. now exists after. Qed.

Lemma starts_app a k s : starts_with k s -> starts_with (a ++ k) (a ++ s).
Proof. intros [after ->]. exists after. now rewrite append_assoc. Qed.

Lemma starts_whole a s : starts_with a (a ++ s).
Proof. now exists s. Qed.

Lemma sub_start k s : starts_with k s -> is_substring k s.
Proof. intros [after ->]. now exists "", after. Qed.

Lemma sub_cons c k s : is_substring k s -> is_substring k (String c s).
Proof. intros (before & after & ->). now exists (String c before), after. Qed.

Lemma sub_app a k s : is_substring k s -> is_substring k (a ++ s).
Proof.
  intros (before & after & ->). exists (a ++ before), after.
  now rewrite append_assoc.
Qed.

Ltac starts :=
  solve [ repeat first [ apply starts_nil | apply starts_cons | apply starts_app
                       | apply starts_whole ] ].

Ltac occurs :=
  first [ apply sub_start; starts
        | apply sub_cons; occurs
        | apply sub_app; occurs ].

(** Bring a concatenation to the form the search expects. *)
Ltac flatten := repeat (rewrite ?append_assoc; cbn [append]).

(** ** [find]: the first element that passes the test *)

Lemma find_first {A} (p : A -> bool) (xs : list A) (x : A) :
  List.find p xs = Some x <->
  exists earlier later,
    xs = (earlier ++ x :: later)%list /\ p x = true
    /\ forall y, In y earlier -> p y = false.
Proof.
  revert x. induction xs as [| a xs IH]; intros x; simpl.
  - split; [discriminate |].
    intros (earlier & later & H & _). destruct earlier; discriminate.
  - destruct (p a) eqn:E.
    + split.
      * intros [= <-]. exists [], xs. repeat split; [exact E | intros y []].
      * intros (earlier & later & H & Hx & Hearlier).
        destruct earlier as [| b earlier]; simpl in H; inversion H; subst.
        -- reflexivity.
        -- rewrite Hearlier in E by now left. discriminate.
    + rewrite IH. split.
      * intros (earlier & later & -> & Hx & Hearlier).
        exists (a :: earlier), later. repeat split; [exact Hx |].
        intros y [<- | Hy]; [exact E | now apply Hearlier].
      * intros (earlier & later & H & Hx & Hearlier).
        destruct earlier as [| b earlier]; simpl in H; inversion H; subst.
        -- congruence.
        -- exists earlier, later. repeat split; [exact Hx |].
           intros y Hy. apply Hearlier. now right.
Qed.

Lemma find_nothing {A} (p : A -> bool) (xs : list A) :
  List.find p xs = None <-> forall y, In y xs -> p y = false.
Proof.
  induction xs as [| a xs IH]; simpl.
  - split; [intros _ y [] | reflexivity].
  - destruct (p a) eqn:E.
    + split; [discriminate | intros H; specialize (H a (or_introl eq_refl)); congruence].
    + rewrite IH. split.
      * intros H y [<- | Hy]; [exact E | now apply H].
      * intros H y Hy. apply H. now right.
Qed.

(** ** Narrative generator: the dominant category *)

Lemma Qle_neq_lt (x y : Q) : x <= y -> ~ x == y -> x < y.
Proof.
  intros Hle Hne. destruct (Qlt_le_dec x y) as [H | H]; [exact H |].
  exfalso. apply Hne. now apply Qle_antisym.
Qed.

Lemma maxRiskOf_eq (r : RiskData) :
  maxRiskOf r
  = Qmax (Qmax (Qmax (Qmax (hot r) (cold r)) (windy r)) (wet r)) (uncomfortable r).
Proof. reflexivity. Qed.

Lemma maxRisk_upper (r : RiskData) (k : RiskKey) : risk_get r k <= maxRiskOf r.
Proof.
  rewrite maxRiskOf_eq.
  destruct k; cbn [risk_get];
    repeat first [ apply Qle_refl
                 | apply Q.le_max_r
                 | (eapply Qle_trans; [| apply Q.le_max_l]) ].
Qed.

Lemma maxRisk_attained (r : RiskData) : exists k, risk_get r k == maxRiskOf r.
Proof.
  rewrite maxRiskOf_eq.
  destruct (Q.max_dec (Qmax (Qmax (Qmax (hot r) (cold r)) (windy r)) (wet r))
                      (uncomfortable r)) as [H4 | H4];
    [| exists key_uncomfortable; cbn [risk_get]; now rewrite H4].
  destruct (Q.max_dec (Qmax (Qmax (hot r) (cold r)) (windy r)) (wet r)) as [H3 | H3];
    [| exists key_wet; cbn [risk_get]; now rewrite H4, H3].
  destruct (Q.max_dec (Qmax (hot r) (cold r)) (windy r)) as [H2 | H2];
    [| exists key_windy; cbn [risk_get]; now rewrite H4, H3, H2].
  destruct (Q.max_dec (hot r) (cold r)) as [H1 | H1];
    [exists key_hot | exists key_cold]; cbn [risk_get]; now rewrite H4, H3, H2, H1.
Qed.

(** The categories before [k] fail the test of [find]. *)
Ltac earlier_keys :=
  let k' := fresh "k" in
  let Hlt := fresh "Hlt" in
  intros k' Hlt; apply Qle_neq_lt; [apply maxRisk_upper |];
  apply Qeq_bool_neq; destruct k'; cbn in Hlt; try lia; assumption.

(** [find] returns the first category, in the enumeration order of
    [RiskData], whose score is the maximum. *)
Lemma maxRiskKey_first (r : RiskData) :
  exists k,
    maxRiskKeyOf r = Some k
    /\ risk_get r k == maxRiskOf r
    /\ forall k', (key_index k' < key_index k)%nat -> risk_get r k' < maxRiskOf r.
Proof.
  unfold maxRiskKeyOf, JS.find, RiskData_keys. cbn [List.find].
  destruct (Qeq_bool (risk_get r key_hot) (maxRiskOf r)) eqn:E1;
    [exists key_hot; repeat split; [now apply Qeq_bool_eq | earlier_keys] |].
  destruct (Qeq_bool (risk_get r key_cold) (maxRiskOf r)) eqn:E2;
    [exists key_cold; repeat split; [now apply Qeq_bool_eq | earlier_keys] |].
  destruct (Qeq_bool (risk_get r key_windy) (maxRiskOf r)) eqn:E3;
    [exists key_windy; repeat split; [now apply Qeq_bool_eq | earlier_keys] |].
  destruct (Qeq_bool (risk_get r key_wet) (maxRiskOf r)) eqn:E4;
    [exists key_wet; repeat split; [now apply Qeq_bool_eq | earlier_keys] |].
  destruct (Qeq_bool (risk_get r key_uncomfortable) (maxRiskOf r)) eqn:E5;
    [exists key_uncomfortable; repeat split; [now apply Qeq_bool_eq | earlier_keys] |].
  exfalso. destruct (maxRisk_attained r) as [k Hk].
  apply Qeq_eq_bool in Hk. destruct k; congruence.
Qed.

(** ** Narrative generator: the text *)

Ltac narrative_text :=
  unfold simulateGeminiAnalysis; cbn [analysis risks];
  unfold analysis_header, analysis_excellent, analysis_moderate, analysis_high,
    shown_temperature, shown_wind, shown_precipitation, shown_percentage, label_of.

Ltac each_piece :=
  let piece := fresh "piece" in
  let Hin := fresh "Hin" in
  intros piece Hin; cbn [In] in Hin;
  repeat (destruct Hin as [<- | Hin]; [flatten; occurs |]);
  destruct Hin.

(** C7, as the code has it.  The narrative takes the maximum of the five
    scores and the first category that reaches it in the order Hot, Cold,
    Windy, Wet, Uncomfortable, and picks the band by [max < 30],
    [30 <= max < 60], [60 <= max].  What it prints depends on the band: the
    favourable text has the temperature and the wind rounded to whole
    numbers and the precipitation with one decimal; the moderate text has
    the label, the rounded percentage, the temperature and the wind; the
    high-risk text has the label, the rounded percentage, the temperature
    and the precipitation. *)
Theorem narrative_by_band (o : NASAWeatherData) (activity date : string) :
  let result := simulateGeminiAnalysis o activity date in
  let maxRisk := maxRiskOf (risks result) in
  exists maxRiskKey,
    maxRiskKeyOf (risks result) = Some maxRiskKey
    /\ (forall k, risk_get (risks result) k <= maxRisk)
    /\ risk_get (risks result) maxRiskKey == maxRisk
    /\ (forall k, (key_index k < key_index maxRiskKey)%nat ->
                  risk_get (risks result) k < maxRisk)
    /\ (maxRisk < 30 ->
        renders (analysis result)
          [ "Excellent conditions for " ++ activity;
            shown_temperature o; shown_wind o; shown_precipitation o ])
    /\ (30 <= maxRisk /\ maxRisk < 60 ->
        renders (analysis result)
          [ "Moderate risk of " ++ riskLabels maxRiskKey ++ " for " ++ activity;
            shown_percentage maxRisk; shown_temperature o; shown_wind o ])
    /\ (60 <= maxRisk ->
        renders (analysis result)
          [ "High risk of " ++ riskLabels maxRiskKey ++ " for " ++ activity;
            shown_percentage maxRisk; shown_temperature o; shown_precipitation o ]).
Proof.
  intros result maxRisk.
  destruct (maxRiskKey_first (risks result)) as (k & Hkey & Hmax & Hfirst).
  exists k. split; [exact Hkey |]. split; [apply maxRisk_upper |].
  split; [exact Hmax |]. split; [exact Hfirst |].
  subst result maxRisk. cbn [risks simulateGeminiAnalysis] in *.
  set (r := calculateRisksFromRealData o activity) in *.
  repeat split.
  - intros Hband. narrative_text. fold r.
    destruct (Qlt_le_dec (maxRiskOf r) 30) as [_ | H]; [| lra].
    each_piece.
  - intros [Hlo Hhi]. narrative_text. fold r. rewrite Hkey.
    destruct (Qlt_le_dec (maxRiskOf r) 30) as [H | _]; [lra |].
    destruct (Qlt_le_dec (maxRiskOf r) 60) as [_ | H]; [| lra].
    each_piece.
  - intros Hband. narrative_text. fold r. rewrite Hkey.
    destruct (Qlt_le_dec (maxRiskOf r) 30) as [H | _]; [lra |].
    destruct (Qlt_le_dec (maxRiskOf r) 60) as [H | _]; [lra |].
    each_piece.
Qed.

Lemma narrative_by_band_witness :
  (maxRiskOf (risks (simulateGeminiAnalysis mildDay "vacation" "2025-07-04")) < 30
   /\ renders (analysis (simulateGeminiAnalysis mildDay "vacation" "2025-07-04"))
        [ "Excellent conditions for " ++ "vacation"; shown_temperature mildDay;
          shown_wind mildDay; shown_precipitation mildDay ])
  /\ ((30 <= maxRiskOf (risks (simulateGeminiAnalysis mildDay "hiking" "2025-07-04"))
       /\ maxRiskOf (risks (simulateGeminiAnalysis mildDay "hiking" "2025-07-04")) < 60)
      /\ renders (analysis (simulateGeminiAnalysis mildDay "hiking" "2025-07-04"))
           [ shown_percentage 32; shown_temperature mildDay; shown_wind mildDay ])
  /\ (60 <= maxRiskOf (risks (simulateGeminiAnalysis stormyDay "camping" "2025-07-04"))
      /\ renders (analysis (simulateGeminiAnalysis stormyDay "camping" "2025-07-04"))
           [ "High risk of " ++ "heavy precipitation" ++ " for " ++ "camping";
             shown_percentage 95; shown_temperature stormyDay;
             shown_precipitation stormyDay ]).
Proof.
  split; [| split].
  - split; [vm_compute; reflexivity |].
    destruct (narrative_by_band mildDay "vacation" "2025-07-04")
      as (k & _ & _ & _ & _ & H & _ & _).
    apply H. vm_compute. reflexivity.
  - split; [split; [vm_compute; discriminate | vm_compute; reflexivity] |].
    destruct (narrative_by_band mildDay "hiking" "2025-07-04")
      as (k & _ & _ & _ & _ & _ & H & _).
    intros piece Hin. apply H.
    + split; [vm_compute; discriminate | vm_compute; reflexivity].
    + right. exact Hin.
  - split; [vm_compute; discriminate |].
    destruct (narrative_by_band stormyDay "camping" "2025-07-04")
      as (k & Hk & _ & _ & _ & _ & _ & H).
    vm_compute in Hk. injection Hk as <-.
    apply H. vm_compute. discriminate.
Defined.

(** C7, as worded, fails: on a mild day the favourable text names neither
    the dominant category (Wet, at 27) nor its percentage. *)
Lemma narrative_favourable_omits_label :
  maxRiskKeyOf (risks (simulateGeminiAnalysis mildDay "vacation" "2025-07-04"))
    = Some key_wet
  /\ maxRiskOf (risks (simulateGeminiAnalysis mildDay "vacation" "2025-07-04")) == 27
  /\ includes (analysis (simulateGeminiAnalysis mildDay "vacation" "2025-07-04"))
       "heavy precipitation" = false
  /\ includes (analysis (simulateGeminiAnalysis mildDay "vacation" "2025-07-04"))
       "27%" = false
  /\ ~ rendered_in_every_band mildDay "vacation" "2025-07-04".
Proof.
  split; [vm_compute; reflexivity |].
  split; [vm_compute; reflexivity |].
  split; [vm_compute; reflexivity |].
  split; [vm_compute; reflexivity |].
  intros H.
  specialize (H _ (or_introl eq_refl)).
  apply includes_spec in H. vm_compute in H. discriminate.
Qed.

(** ** The outputs depend on the numbers only *)

Lemma Math_round_same (x y : number) : x == y -> Math_round x = Math_round y.
Proof. intros H. unfold Math_round. apply Qfloor_comp. now rewrite H. Qed.

Lemma toFixed1_same (x y : number) : x == y -> toFixed1 x = toFixed1 y.
Proof.
  intros H. unfold toFixed1.
  assert (Hn : Qfloor (Qabs x * 10 + 0.5) = Qfloor (Qabs y * 10 + 0.5))
    by (apply Qfloor_comp; now rewrite H).
  rewrite Hn.
  destruct (Qlt_le_dec x 0), (Qlt_le_dec y 0); try reflexivity; exfalso; lra.
Qed.

Lemma maxRiskOf_same (a b : RiskData) :
  same_risks a b -> maxRiskOf a == maxRiskOf b.
Proof.
  intros H. rewrite !maxRiskOf_eq.
  pose proof (H key_hot) as H1. pose proof (H key_cold) as H2.
  pose proof (H key_windy) as H3. pose proof (H key_wet) as H4.
  pose proof (H key_uncomfortable) as H5. cbn [risk_get] in *.
  now rewrite H1, H2, H3, H4, H5.
Qed.

Lemma maxRiskKeyOf_same (a b : RiskData) :
  same_risks a b -> maxRiskKeyOf a = maxRiskKeyOf b.
Proof.
  intros H. unfold maxRiskKeyOf, JS.find, RiskData_keys. cbn [List.find].
  pose proof (maxRiskOf_same a b H) as Hm.
  rewrite !(Qeqb_comp _ _ (H _) _ _ Hm). reflexivity.
Qed.

Lemma band_same (x y : number) (bound : number) {A} (u v : A) :
  x == y ->
  (if Qlt_le_dec x bound then u else v) = (if Qlt_le_dec y bound then u else v).
Proof.
  intros H. destruct (Qlt_le_dec x bound), (Qlt_le_dec y bound);
    try reflexivity; exfalso; lra.
Qed.

Lemma simulateGeminiAnalysis_same (a b : NASAWeatherData) (eventType date : string) :
  same_observation a b ->
  analysis (simulateGeminiAnalysis a eventType date)
  = analysis (simulateGeminiAnalysis b eventType date).
Proof.
  intros H.
  pose proof (calculateRisks_same a b eventType H) as Hr.
  pose proof (maxRiskOf_same _ _ Hr) as Hm.
  pose proof (maxRiskKeyOf_same _ _ Hr) as Hk.
  destruct H as (Ht & Hp & Hh & Hw & Hc & Hlat & Hlon & Hname).
  unfold simulateGeminiAnalysis. cbn [analysis].
  unfold analysis_header, analysis_excellent, analysis_moderate, analysis_high.
  rewrite Hname, Hk.
  rewrite (Math_round_same _ _ Ht), (Math_round_same _ _ Hw),
    (Math_round_same _ _ Hm), (toFixed1_same _ _ Hp).
  rewrite (band_same _ _ 30 _ _ Hm), (band_same _ _ 60 _ _ Hm).
  reflexivity.
Qed.

(** The scorer and the narrative generator depend on the numbers of an
    observation, not on the fractions that write them: on the same
    observation, activity and date they give the same five scores and the
    same text and source labels, character for character; the awaited
    analysis returns that result whatever the state of the random stream,
    and leaves the stream untouched. *)
Theorem outputs_respect_numbers
  (a b : NASAWeatherData) (activity1 activity2 date1 date2 : string) :
  same_observation a b -> activity1 = activity2 -> date1 = date2 ->
  same_risks (calculateRisksFromRealData a activity1)
             (calculateRisksFromRealData b activity2)
  /\ same_risks (risks (simulateGeminiAnalysis a activity1 date1))
                (risks (simulateGeminiAnalysis b activity2 date2))
  /\ analysis (simulateGeminiAnalysis a activity1 date1)
     = analysis (simulateGeminiAnalysis b activity2 date2)
  /\ sources (simulateGeminiAnalysis a activity1 date1)
     = sources (simulateGeminiAnalysis b activity2 date2)
  /\ (forall g : Rng,
        analyzeWithGemini a activity1 date1 g
        = (Return (simulateGeminiAnalysis a activity1 date1), g)).
Proof.
  intros H -> ->. repeat split.
  - now apply calculateRisks_same.
  - cbn [risks simulateGeminiAnalysis]. now apply calculateRisks_same.
  - now apply simulateGeminiAnalysis_same.
Qed.

Lemma outputs_respect_numbers_witness :
  same_observation mildDay mildDayAgain
  /\ same_risks (calculateRisksFromRealData mildDay "picnic")
                (calculateRisksFromRealData mildDayAgain "picnic")
  /\ analysis (simulateGeminiAnalysis mildDay "picnic" "2025-07-04")
     = analysis (simulateGeminiAnalysis mildDayAgain "picnic" "2025-07-04").
Proof.
  assert (H : same_observation mildDay mildDayAgain)
    by (repeat split; reflexivity).
  split; [exact H |].
  destruct (outputs_respect_numbers
              mildDay mildDayAgain "picnic" "picnic" "2025-07-04" "2025-07-04"
              H eq_refl eq_refl) as (H1 & _ & H3 & _ & _).
  split; [exact H1 | exact H3].
Defined.

Lemma scorer_monotone_witness :
  (same_but_wind mildDay breezyDay
   /\ windSpeed mildDay <= windSpeed breezyDay
   /\ windy (calculateRisksFromRealData mildDay "fishing")
      <= windy (calculateRisksFromRealData breezyDay "fishing"))
  /\ (same_but_precipitation mildDay rainyDay
      /\ precipitation mildDay <= precipitation rainyDay
      /\ wet (calculateRisksFromRealData mildDay "fishing")
         <= wet (calculateRisksFromRealData rainyDay "fishing")).
Proof.
  assert (Hwind : same_but_wind mildDay breezyDay) by (repeat split; reflexivity).
  assert (Hrain : same_but_precipitation mildDay rainyDay)
    by (repeat split; reflexivity).
  assert (Hw : windSpeed mildDay <= windSpeed breezyDay) by (vm_compute; discriminate).
  assert (Hp : precipitation mildDay <= precipitation rainyDay)
    by (vm_compute; discriminate).
  split.
  - split; [exact Hwind |]. split; [exact Hw |].
    exact (proj1 (scorer_monotone "fishing" mildDay breezyDay) Hwind Hw).
  - split; [exact Hrain |]. split; [exact Hp |].
    exact (proj2 (scorer_monotone "fishing" mildDay rainyDay) Hrain Hp).
Defined.

(** ** Location resolver *)

(** Either the live lookup gives a first hit, or it is unavailable. *)
Lemma geocoding_cases (host : Host) (location : string) :
  geocodingUnavailable host location
  \/ exists first rest, geocoding host location = Return (Some (first :: rest)).
Proof.
  unfold geocodingUnavailable.
  destruct (geocoding host location) as [[[| first rest] |] | err]; eauto.
Qed.

Lemma resolver_fallback (host : Host) (location : string) (g : Rng) :
  geocodingUnavailable host location ->
  getCoordinatesFromLocation host (Some location) g
  = (Return (fallbackFor host location), g).
Proof.
  unfold geocodingUnavailable, getCoordinatesFromLocation, try_catch, JS.bind, await,
    fallbackFor.
  cbn [or_else].
  destruct (geocoding host location) as [[[| first rest] |] | err]; intros H;
    try contradiction;
    cbv beta iota zeta delta [throw ret];
    destruct (JS.find _ fallbackCities) as [[city coords] |]; reflexivity.
Qed.

Lemma resolver_live (host : Host) (location : string) (g : Rng) first rest :
  geocoding host location = Return (Some (first :: rest)) ->
  getCoordinatesFromLocation host (Some location) g
  = (Return {| Coords.lat := latitude first; Coords.lon := longitude first;
               Coords.name := result_name first |}, g).
Proof.
  intros E. unfold getCoordinatesFromLocation, try_catch, JS.bind, await.
  cbn [or_else]. now rewrite E.
Qed.

Lemma fallbackFor_tokyo (host : Host) (location : string) :
  is_substring "tokyo" (toLowerCase host location) ->
  ~ is_substring "new york" (toLowerCase host location) ->
  ~ is_substring "london" (toLowerCase host location) ->
  fallbackFor host location = tokyoCoords.
Proof.
  intros Htokyo Hny Hlondon.
  apply includes_spec in Htokyo. apply includes_false in Hny, Hlondon.
  unfold fallbackFor, JS.find, fallbackCities. cbn [List.find fst].
  now rewrite Hny, Hlondon, Htokyo.
Qed.

Lemma fallbackFor_default (host : Host) (location : string) :
  (forall city c, In (city, c) fallbackCities ->
                  ~ is_substring city (toLowerCase host location)) ->
  fallbackFor host location = defaultCoords.
Proof.
  intros Hnone. unfold fallbackFor.
  replace (JS.find (fun entry => includes (toLowerCase host location) (fst entry))
                   fallbackCities)
    with (@None (string * Coords.t)); [reflexivity |].
  symmetry. apply find_nothing. intros [city c] Hin.
  apply includes_false. cbn [fst]. now apply Hnone with (c := c).
Qed.

(** C5, as the code has it.  The resolver never throws and always returns
    a latitude, a longitude and a label.  When live geocoding is
    unavailable, a name whose lower-cased form ([name.toLowerCase()], the
    runtime's) contains "tokyo" and neither "new york" nor "london" gives
    the Tokyo entry (35.6762, 139.6503), and a name whose lower-cased form
    contains none of the six city names gives the default location.  In
    particular, for a name of ASCII characters the letters of "tokyo" may
    be written in any case. *)
Theorem resolver_total_and_fallback (host : Host) (location : string) (g : Rng) :
  exists coords,
    getCoordinatesFromLocation host (Some location) g = (Return coords, g)
    /\ (geocodingUnavailable host location ->
        (is_substring "tokyo" (toLowerCase host location) ->
         ~ is_substring "new york" (toLowerCase host location) ->
         ~ is_substring "london" (toLowerCase host location) ->
         coords = tokyoCoords)
        /\ ((forall city c, In (city, c) fallbackCities ->
                            ~ is_substring city (toLowerCase host location)) ->
            coords = defaultCoords)
        /\ (lowers_ascii host -> ascii_text location = true ->
            is_substring "tokyo" (asciiLowerCase location) ->
            ~ is_substring "new york" (asciiLowerCase location) ->
            ~ is_substring "london" (asciiLowerCase location) ->
            coords = tokyoCoords)).
Proof.
  destruct (geocoding_cases host location) as [H | (first & rest & E)].
  - exists (fallbackFor host location). split; [now apply resolver_fallback |].
    intros _. split; [apply fallbackFor_tokyo |].
    split; [apply fallbackFor_default |].
    intros Hlower Hascii. rewrite <- (Hlower location Hascii).
    apply fallbackFor_tokyo.
  - eexists. split; [eapply resolver_live, E |].
    unfold geocodingUnavailable. rewrite E. contradiction.
Qed.

Lemma asciiLowerCase_lowers : lowers_ascii offlineHost.
Proof. intros s _. reflexivity. Qed.

Lemma resolver_total_and_fallback_witness :
  geocodingUnavailable offlineHost "TOKYO Tower"
  /\ lowers_ascii offlineHost
  /\ ascii_text "TOKYO Tower" = true
  /\ getCoordinatesFromLocation offlineHost (Some "TOKYO Tower") evenDraws
     = (Return tokyoCoords, evenDraws)
  /\ getCoordinatesFromLocation offlineHost (Some "Reykjavik") evenDraws
     = (Return defaultCoords, evenDraws).
Proof.
  split; [exact I |]. split; [exact asciiLowerCase_lowers |].
  split; [reflexivity |]. split.
  - destruct (resolver_total_and_fallback offlineHost "TOKYO Tower" evenDraws)
      as (coords & Hrun & Hfallback).
    destruct (Hfallback I) as (_ & _ & Htokyo).
    rewrite Hrun, Htokyo; [reflexivity | exact asciiLowerCase_lowers | reflexivity | | |].
    + apply includes_spec. vm_compute. reflexivity.
    + apply includes_false. vm_compute. reflexivity.
    + apply includes_false. vm_compute. reflexivity.
  - destruct (resolver_total_and_fallback offlineHost "Reykjavik" evenDraws)
      as (coords & Hrun & Hfallback).
    destruct (Hfallback I) as (_ & Hdefault & _).
    rewrite Hrun, Hdefault; [reflexivity |].
    intros city c Hin. apply includes_false.
    cbn in Hin.
    repeat (destruct Hin as [[= <- <-] | Hin]; [vm_compute; reflexivity |]).
    destruct Hin.
Defined.

(** C5, as worded, fails: a name that contains "tokyo" after "london"
    resolves to London, the entry declared first. *)
Lemma resolver_first_city_wins :
  geocodingUnavailable offlineHost "London to Tokyo"
  /\ includes (toLowerCase offlineHost "London to Tokyo") "tokyo" = true
  /\ getCoordinatesFromLocation offlineHost (Some "London to Tokyo") evenDraws
     = (Return londonCoords, evenDraws)
  /\ ~ Coords.lat londonCoords == 35.6762
  /\ ~ Coords.lon londonCoords == 139.6503.
Proof.
  split; [exact I |]. split; [vm_compute; reflexivity |].
  split; [vm_compute; reflexivity |].
  split; intros H; vm_compute in H; discriminate.
Qed.

(** ** Forecast provider *)

(** The synthetic observation never throws; it consumes five draws. *)
Lemma generateFallbackData_returns (host : Host) (lat lon : number) (date : string)
  (g : Rng) :
  exists weatherData,
    generateFallbackData host lat lon date g
    = (Return weatherData, {| draws := draws g; next := 5 + next g |})
    /\ precipitation weatherData == Math_max 0 (2 + draws g (1 + next g)%nat * 5)
    /\ humidity weatherData == 60 + (draws g (2 + next g)%nat - 0.5) * 30
    /\ cloudCover weatherData == draws g (4 + next g)%nat * 100
    /\ locationName weatherData = "Estimated Data".
Proof.
  unfold generateFallbackData, JS.bind, Math_random, draw, ret.
  cbv beta iota zeta. cbn [draws next].
  eexists. split; [reflexivity |].
  cbn [precipitation humidity cloudCover locationName Nat.add].
  repeat split; reflexivity.
Qed.

Lemma provider_fallback (host : Host) (lat lon : number) (date : string) (g : Rng) :
  forecastUnavailable host lat lon date ->
  getNASAWeatherData host lat lon date g = generateFallbackData host lat lon date g.
Proof.
  unfold forecastUnavailable, getNASAWeatherData, try_catch, JS.bind, await.
  destruct (forecast host lat lon date) as [[daily |] | err]; intros H;
    [contradiction | reflexivity | reflexivity].
Qed.

(** C6. The provider never throws.  When the live forecast is unavailable
    and the draws of [Math.random] lie in [0, 1), the synthetic
    observation has a precipitation that is not negative and a humidity
    and a cloud cover between 0 and 100. *)
Theorem provider_total_and_bounded (host : Host) (lat lon : number) (date : string)
  (g : Rng) :
  exists weatherData g',
    getNASAWeatherData host lat lon date g = (Return weatherData, g')
    /\ (forecastUnavailable host lat lon date -> unit_interval g ->
        0 <= precipitation weatherData
        /\ (0 <= humidity weatherData /\ humidity weatherData <= 100)
        /\ (0 <= cloudCover weatherData /\ cloudCover weatherData <= 100)).
Proof.
  destruct (forecast host lat lon date) as [[daily |] | err] eqn:E.
  - (* the live forecast *)
    eexists. exists g. split.
    + unfold getNASAWeatherData, try_catch, JS.bind, await. rewrite E. reflexivity.
    + unfold forecastUnavailable. rewrite E. contradiction.
  - destruct (generateFallbackData_returns host lat lon date g)
      as (w & Hrun & Hp & Hh & Hc & _).
    exists w. eexists. split.
    + rewrite provider_fallback; [exact Hrun |].
      unfold forecastUnavailable. now rewrite E.
    + intros _ Hunit. rewrite Hp, Hh, Hc.
      pose proof (Hunit (2 + next g)%nat) as [? ?].
      pose proof (Hunit (4 + next g)%nat) as [? ?].
      split; [apply Q.le_max_l | split; split; lra].
  - destruct (generateFallbackData_returns host lat lon date g)
      as (w & Hrun & Hp & Hh & Hc & _).
    exists w. eexists. split.
    + rewrite provider_fallback; [exact Hrun |].
      unfold forecastUnavailable. now rewrite E.
    + intros _ Hunit. rewrite Hp, Hh, Hc.
      pose proof (Hunit (2 + next g)%nat) as [? ?].
      pose proof (Hunit (4 + next g)%nat) as [? ?].
      split; [apply Q.le_max_l | split; split; lra].
Qed.

Lemma evenDraws_unit_interval : unit_interval evenDraws.
Proof. intros i. split; [vm_compute; discriminate | vm_compute; reflexivity]. Qed.

Lemma provider_total_and_bounded_witness :
  forecastUnavailable offlineHost 48.8566 2.3522 "2025-07-04"
  /\ unit_interval evenDraws
  /\ exists weatherData g',
       getNASAWeatherData offlineHost 48.8566 2.3522 "2025-07-04" evenDraws
       = (Return weatherData, g')
       /\ 0 <= precipitation weatherData
       /\ (0 <= humidity weatherData /\ humidity weatherData <= 100)
       /\ (0 <= cloudCover weatherData /\ cloudCover weatherData <= 100).
Proof.
  split; [exact I |]. split; [exact evenDraws_unit_interval |].
  destruct (provider_total_and_bounded offlineHost 48.8566 2.3522 "2025-07-04" evenDraws)
    as (weatherData & g' & Hrun & Hbounds).
  exists weatherData, g'. split; [exact Hrun |].
  exact (Hbounds I evenDraws_unit_interval).
Defined.

(** ** Dialogue controller: the classification of the activity *)

Lemma chatState_addRandomResponse responses p :
  chatState (addRandomResponse responses p) = chatState p.
Proof. reflexivity. Qed.

(** The state after a text is processed: the stage is read in the render
    that sent the text, the fields are written on the state of the page. *)
Lemma processMessage_chatState (host : Host) (render : ChatState) (message : string)
  (p : Page) :
  chatState (processMessage host render message p)
  = match stage render with
    | stage_event =>
        match matchEvent (toLowerCase host message) with
        | Some (event, _) =>
            {| stage := stage_location; eventType := Some event;
               location := location (chatState p); date := date (chatState p) |}
        | None => chatState p
        end
    | stage_location =>
        {| stage := stage_date; eventType := eventType (chatState p);
           location := Some message; date := date (chatState p) |}
    | stage_date =>
        {| stage := stage (chatState p); eventType := eventType (chatState p);
           location := location (chatState p); date := Some message |}
    end.
Proof.
  unfold processMessage.
  destruct (stage render).
  - destruct (matchEvent (toLowerCase host message)) as [[event keywords] |];
      reflexivity.
  - reflexivity.
  - reflexivity.
Qed.

Lemma some_keyword (s : string) (keywords : list string) :
  JS.some (fun keyword => includes s keyword) keywords = true
  <-> exists k, In k keywords /\ is_substring k s.
Proof.
  unfold JS.some. rewrite existsb_exists.
  split; intros (k & Hin & H); exists k; (split; [exact Hin |]);
    now apply includes_spec.
Qed.

Lemma no_keyword (s : string) (keywords : list string) :
  JS.some (fun keyword => includes s keyword) keywords = false
  <-> forall k, In k keywords -> ~ is_substring k s.
Proof.
  rewrite <- not_true_iff_false, some_keyword. split.
  - intros H k Hin Hsub. apply H. now exists k.
  - intros H (k & Hin & Hsub). now apply (H k).
Qed.

(** The loop returns on the first activity, in the declared order, that
    has a keyword in the text. *)
Lemma matchEvent_first (s event : string) :
  first_match eventMap s event <-> exists keywords, matchEvent s = Some (event, keywords).
Proof.
  unfold first_match, matchEvent, JS.find. split.
  - intros (earlier & keywords & later & Hmap & Hk & Hearlier).
    exists keywords. apply find_first. exists earlier, later.
    split; [exact Hmap |]. split.
    + cbn [snd]. now apply some_keyword.
    + intros [key' keywords'] Hin. cbn [snd]. apply no_keyword.
      intros k. now apply Hearlier with (key' := key').
  - intros [keywords H]. apply find_first in H.
    destruct H as (earlier & later & Hmap & Hk & Hearlier).
    exists earlier, keywords, later. split; [exact Hmap |]. split.
    + now apply some_keyword in Hk.
    + intros key' keywords' k Hin. specialize (Hearlier _ Hin).
      cbn [snd] in Hearlier. rewrite no_keyword in Hearlier. apply Hearlier.
Qed.

Lemma matchEvent_none (s : string) :
  no_match eventMap s <-> matchEvent s = None.
Proof.
  unfold no_match, matchEvent, JS.find. rewrite find_nothing. split.
  - intros H [key keywords] Hin. cbn [snd]. apply no_keyword.
    intros k. now apply H with (key := key).
  - intros H key keywords k Hin. specialize (H _ Hin).
    cbn [snd] in H. rewrite no_keyword in H. apply H.
Qed.

(** What a text does when it is processed in the stage ['event']. *)
Lemma classified (host : Host) (render : ChatState) (message lowered : string)
  (p : Page) :
  stage render = stage_event -> toLowerCase host message = lowered ->
  (forall event,
      first_match eventMap lowered event ->
      chatState (processMessage host render message p)
      = {| stage := stage_location; eventType := Some event;
           location := location (chatState p); date := date (chatState p) |})
  /\ (no_match eventMap lowered ->
      chatState (processMessage host render message p) = chatState p).
Proof.
  intros Hstage <-. rewrite processMessage_chatState, Hstage. split.
  - intros event Hfirst. apply matchEvent_first in Hfirst.
    destruct Hfirst as [keywords ->]. reflexivity.
  - intros Hnone. apply matchEvent_none in Hnone. now rewrite Hnone.
Qed.

(** C4. In the stage ['event'] the controller lower-cases the text (with
    the runtime's [toLowerCase]) and takes the first activity, in the order
    vacation, hiking, fishing, picnic, sports, camping, one of whose
    keywords occurs in the lower-cased text: the state moves to
    ['location'] with that activity.  A text in whose lower-cased form no
    keyword occurs leaves the state as it was.  On a text of ASCII
    characters the lower-cased form is the text with its letters A to Z
    lower-cased, so the letters of a keyword may be typed in any case;
    "I'm going hiking", however its letters are cased, selects hiking. *)
Theorem activity_classification (host : Host) (render : ChatState) (message : string)
  (p : Page) :
  stage render = stage_event ->
  map fst eventMap = ["vacation"; "hiking"; "fishing"; "picnic"; "sports"; "camping"]
  /\ (forall event,
        first_match eventMap (toLowerCase host message) event ->
        chatState (processMessage host render message p)
        = {| stage := stage_location; eventType := Some event;
             location := location (chatState p); date := date (chatState p) |})
  /\ (no_match eventMap (toLowerCase host message) ->
      chatState (processMessage host render message p) = chatState p)
  /\ (lowers_ascii host -> ascii_text message = true ->
      (forall event,
          first_match eventMap (asciiLowerCase message) event ->
          chatState (processMessage host render message p)
          = {| stage := stage_location; eventType := Some event;
               location := location (chatState p); date := date (chatState p) |})
      /\ (no_match eventMap (asciiLowerCase message) ->
          chatState (processMessage host render message p) = chatState p)
      /\ (asciiLowerCase message = "i'm going hiking" ->
          stage (chatState (processMessage host render message p)) = stage_location
          /\ eventType (chatState (processMessage host render message p))
             = Some "hiking")).
Proof.
  intros Hstage. split; [reflexivity |].
  destruct (classified host render message _ p Hstage eq_refl) as [Hfirst Hnone].
  split; [exact Hfirst |]. split; [exact Hnone |].
  intros Hlower Hascii.
  destruct (classified host render message _ p Hstage (Hlower message Hascii))
    as [Hfirst' Hnone'].
  split; [exact Hfirst' |]. split; [exact Hnone' |].
  intros Hsentence.
  assert (H : first_match eventMap (asciiLowerCase message) "hiking")
    by (rewrite Hsentence; apply matchEvent_first; eexists; vm_compute; reflexivity).
  rewrite (Hfirst' _ H). split; reflexivity.
Qed.

Lemma activity_classification_witness :
  stage initialChatState = stage_event
  /\ lowers_ascii offlineHost
  /\ ascii_text "I'm Going HIKING" = true
  /\ asciiLowerCase "I'm Going HIKING" = "i'm going hiking"
  /\ chatState (processMessage offlineHost initialChatState "I'm Going HIKING"
                  (initialPage evenDraws))
     = {| stage := stage_location; eventType := Some "hiking";
          location := None; date := None |}
  /\ no_match eventMap (toLowerCase offlineHost "Knitting at HOME")
  /\ chatState (processMessage offlineHost initialChatState "Knitting at HOME"
                  (initialPage evenDraws))
     = initialChatState.
Proof.
  assert (Hnone : no_match eventMap (toLowerCase offlineHost "Knitting at HOME"))
    by (apply matchEvent_none; vm_compute; reflexivity).
  split; [reflexivity |]. split; [exact asciiLowerCase_lowers |].
  split; [reflexivity |]. split; [reflexivity |].
  split; [| split; [exact Hnone |]].
  - destruct (activity_classification offlineHost initialChatState "I'm Going HIKING"
                (initialPage evenDraws) eq_refl) as (_ & _ & _ & H).
    destruct (H asciiLowerCase_lowers eq_refl) as (_ & _ & Hsentence).
    destruct (Hsentence eq_refl) as [Hs He].
    destruct (chatState (processMessage offlineHost initialChatState "I'm Going HIKING"
                           (initialPage evenDraws))) as [st ev loc dt] eqn:E.
    cbn in Hs, He. subst st ev.
    assert (Hrest : loc = None /\ dt = None).
    { change loc with (location {| stage := stage_location; eventType := Some "hiking";
                                   location := loc; date := dt |}).
      change dt with (date {| stage := stage_location; eventType := Some "hiking";
                              location := loc; date := dt |}) at 2.
      rewrite <- E. split; reflexivity. }
    destruct Hrest as [-> ->]. reflexivity.
  - destruct (activity_classification offlineHost initialChatState "Knitting at HOME"
                (initialPage evenDraws) eq_refl) as (_ & _ & H & _).
    exact (H Hnone).
Defined.

(** ** The report: failure of the pipeline *)

Section ReportFacts.

Variable resolve : option string -> Eff Coords.t.
Variable fetchWeather : number -> number -> string -> Eff NASAWeatherData.
Variable analyze : NASAWeatherData -> string -> string -> Eff GeminiAnalysis.

Let report := generateRealWeatherReport resolve fetchWeather analyze.
Let pipeline := reportPipeline resolve fetchWeather analyze.

(** The report never writes the conversation state, whatever its outcome:
    only its follow-up does. *)
Lemma report_chatState location eventType date p :
  chatState (report location eventType date p) = chatState p.
Proof.
  unfold report, generateRealWeatherReport.
  destruct (reportPipeline _ _ _ _ _ _ _) as [[[weatherData result] | err] g];
    reflexivity.
Qed.

Lemma report_failure location eventType date p err g :
  pipeline location eventType date (random p) = (Throw err, g) ->
  report location eventType date p
  = addMessage reportError bot None None
      (setRandom g (addMessage reportConnecting bot None None p)).
Proof.
  intros H. unfold report, generateRealWeatherReport.
  cbn [random addMessage]. unfold pipeline in H. now rewrite H.
Qed.

End ReportFacts.

(** C3, as the code has it.  When the pipeline of a report throws, the
    handler appends the connecting notice and then one error message, shows
    no report (no message with risk data), sets no timer, and leaves the
    conversation state as it was: the state is not reset. *)
Theorem report_failure_keeps_state
  (resolve : option string -> Eff Coords.t)
  (fetchWeather : number -> number -> string -> Eff NASAWeatherData)
  (analyze : NASAWeatherData -> string -> string -> Eff GeminiAnalysis)
  (location eventType : option string) (date : string) (p : Page)
  (err : string) (g : Rng) :
  reportPipeline resolve fetchWeather analyze location eventType date (random p)
    = (Throw err, g) ->
  let p' := generateRealWeatherReport resolve fetchWeather analyze
              location eventType date p in
  messages p'
  = (messages p
     ++ [ {| text := reportConnecting; sender := bot; riskData := None;
             dataSources := None |};
          {| text := reportError; sender := bot; riskData := None;
             dataSources := None |} ])%list
  /\ chatState p' = chatState p
  /\ timers p' = timers p.
Proof.
  intros H p'. subst p'.
  rewrite (report_failure _ _ _ _ _ _ _ _ _ H).
  cbn [messages chatState timers addMessage setRandom].
  split; [now rewrite <- app_assoc | split; reflexivity].
Qed.

Lemma report_failure_keeps_state_witness :
  reportPipeline (getCoordinatesFromLocation offlineHost)
    (getNASAWeatherData offlineHost) failingAnalysis
    (Some "Paris") (Some "picnic") "2025-07-04" (random awaitingDate)
  = (Throw "TypeError", {| draws := draws evenDraws; next := 5 |})
  /\ List.length
       (messages (generateRealWeatherReport (getCoordinatesFromLocation offlineHost)
                    (getNASAWeatherData offlineHost) failingAnalysis
                    (Some "Paris") (Some "picnic") "2025-07-04" awaitingDate))
     = 3%nat
  /\ chatState (generateRealWeatherReport (getCoordinatesFromLocation offlineHost)
                  (getNASAWeatherData offlineHost) failingAnalysis
                  (Some "Paris") (Some "picnic") "2025-07-04" awaitingDate)
     = chatState awaitingDate.
Proof.
  assert (H : reportPipeline (getCoordinatesFromLocation offlineHost)
                (getNASAWeatherData offlineHost) failingAnalysis
                (Some "Paris") (Some "picnic") "2025-07-04" (random awaitingDate)
              = (Throw "TypeError", {| draws := draws evenDraws; next := 5 |}))
    by reflexivity.
  split; [exact H |].
  destruct (report_failure_keeps_state _ _ _ _ _ _ _ _ _ H) as (Hm & Hc & _).
  split; [now rewrite Hm | exact Hc].
Defined.

(** C3, as worded, fails: the user sends the date, the report timer fires
    and the analysis rejects; the conversation still awaits the date, with
    its activity and location, and nothing is pending that would reset it. *)
Lemma report_failure_does_not_reset :
  timers (handleSend "2025-07-04" awaitingDate)
  = [timer_process (chatState awaitingDate) "2025-07-04"]
  /\ timers dateProcessed
     = [timer_report (Some "Paris") (Some "picnic") "2025-07-04"]
  /\ reportPipeline (getCoordinatesFromLocation offlineHost)
       (getNASAWeatherData offlineHost) failingAnalysis
       (Some "Paris") (Some "picnic") "2025-07-04" evenDraws
     = (Throw "TypeError", {| draws := draws evenDraws; next := 5 |})
  /\ chatState failedReport
     = {| stage := stage_date; eventType := Some "picnic";
          location := Some "Paris"; date := Some "2025-07-04" |}
  /\ chatState failedReport <> initialChatState
  /\ map text (messages failedReport)
     = [welcome; "2025-07-04";
        "🛰️ Accessing NASA satellite data and atmospheric models...";
        reportConnecting; reportError]
  /\ timers failedReport = [].
Proof.
  split; [reflexivity |]. split; [reflexivity |]. split; [reflexivity |].
  split; [reflexivity |]. split; [discriminate |]. split; reflexivity.
Qed.

(** ** Dialogue controller: the invariant of the conversation state *)

Lemma invariant_initial : invariant initialChatState.
Proof.
  unfold invariant, past_activity, past_location. cbn.
  split; split; intros H; try congruence; try (destruct H; discriminate).
Qed.

(** The state written when an activity is chosen, from the stage ['event']. *)
Lemma invariant_choose (c : ChatState) (event : string) :
  invariant c -> stage c = stage_event ->
  invariant {| stage := stage_location; eventType := Some event;
               location := location c; date := date c |}.
Proof.
  unfold invariant, past_activity, past_location. intros [_ Hloc] Hstage. cbn.
  rewrite Hstage in Hloc. split; split; intros H; try discriminate; auto.
  exfalso. apply Hloc in H. discriminate.
Qed.

(** A text that is processed in the state in which it was sent. *)
Lemma invariant_processMessage (host : Host) (message : string) (p : Page) :
  invariant (chatState p) ->
  invariant (chatState (processMessage host (chatState p) message p)).
Proof.
  intros Hinv. rewrite processMessage_chatState.
  destruct (stage (chatState p)) eqn:Hstage.
  - destruct (matchEvent (toLowerCase host message)) as [[event keywords] |];
      [now apply invariant_choose | exact Hinv].
  - destruct Hinv as [Hact _]. rewrite Hstage in Hact.
    unfold invariant, past_activity, past_location. cbn.
    split; split; intros H; try discriminate; auto.
    apply Hact. now left.
  - destruct Hinv as [Hact Hloc]. rewrite Hstage in Hact, Hloc.
    unfold invariant, past_activity, past_location. cbn.
    split; split; intros H; auto.
    + apply Hact. now right.
    + now apply Hloc.
Qed.

Lemma invariant_handleQuickReply (host : Host) (event label : string) (p : Page) :
  invariant (chatState p) -> quickRepliesShown p = true ->
  invariant (chatState (handleQuickReply host event label p)).
Proof.
  intros Hinv Hshown. unfold quickRepliesShown in Hshown.
  destruct (stage (chatState p)) eqn:Hstage; try discriminate.
  unfold handleQuickReply. rewrite chatState_addRandomResponse.
  cbn [chatState setChatState addMessage]. now apply invariant_choose.
Qed.

(** *** The timers *)

Lemma removeTimer_Forall (P : Timer -> Prop) (n : nat) (ts : list Timer) :
  Forall P ts -> Forall P (removeTimer n ts).
Proof.
  revert n. induction ts as [| t ts IH]; intros n H; [destruct n; exact H |].
  inversion H as [| ? ? Ht Hts]; subst.
  destruct n; cbn; [exact Hts | constructor; [exact Ht | now apply IH]].
Qed.

(** The timer that was set last is the one at the end of the list. *)
Lemma removeTimer_last (ts : list Timer) (t : Timer) :
  removeTimer (List.length ts) (ts ++ [t]) = ts.
Proof. induction ts as [| t' ts IH]; cbn; [reflexivity | now rewrite IH]. Qed.

Lemma nth_error_last (ts : list Timer) (t : Timer) :
  nth_error (ts ++ [t]) (List.length ts) = Some t.
Proof. induction ts as [| t' ts IH]; cbn; [reflexivity | exact IH]. Qed.

Lemma processMessage_timers (host : Host) (render : ChatState) (message : string)
  (p : Page) :
  timers (processMessage host render message p)
  = match stage render with
    | stage_date =>
        (timers p ++ [timer_report (location render) (eventType render) message])%list
    | _ => timers p
    end.
Proof.
  unfold processMessage. destruct (stage render).
  - destruct (matchEvent (toLowerCase host message)) as [[event keywords] |];
      reflexivity.
  - reflexivity.
  - reflexivity.
Qed.

Lemma matchEvent_known (s event : string) (keywords : list string) :
  matchEvent s = Some (event, keywords) -> In event (map fst eventAdjustments).
Proof.
  intros H. unfold matchEvent, JS.find in H. apply find_some in H.
  destruct H as [Hin _]. unfold eventMap in Hin. cbn [In] in Hin.
  repeat (destruct Hin as [[= <- <-] | Hin]; [cbn; auto 10 |]).
  destruct Hin.
Qed.

Lemma eventTypes_known (value emoji label : string) :
  In (value, emoji, label) eventTypes -> In value (map fst eventAdjustments).
Proof.
  intros Hin. unfold eventTypes in Hin. cbn [In] in Hin.
  repeat (destruct Hin as [[= <- <- <-] | Hin]; [cbn; auto 10 |]).
  destruct Hin.
Qed.

(** *** The turns served one at a time *)

Lemma page_ok_initial (g : Rng) : page_ok (initialPage g).
Proof.
  split; [apply invariant_initial |]. split; [intros e [=] |].
  split; [intros H; now cbn in H | constructor].
Qed.

Lemma choose_ok (p : Page) (event : string) (ms : list Message) (g : Rng) :
  page_ok p -> stage (chatState p) = stage_event ->
  In event (map fst eventAdjustments) ->
  page_ok {| chatState := {| stage := stage_location; eventType := Some event;
                             location := location (chatState p);
                             date := date (chatState p) |};
             messages := ms; random := g; timers := timers p |}.
Proof.
  intros (Hinv & Hact & Hdate & Htimers) Hstage Hevent.
  split; [| split; [| split]]; cbn [chatState timers].
  - now apply invariant_choose.
  - intros e [= <-]. exact Hevent.
  - intros H. cbn [date stage] in *. apply Hdate in H. congruence.
  - exact Htimers.
Qed.

Lemma processMessage_ok (host : Host) (message : string) (p : Page) :
  page_ok p -> page_ok (processMessage host (chatState p) message p).
Proof.
  intros Hok. pose proof Hok as (Hinv & Hact & Hdate & Htimers).
  unfold page_ok.
  rewrite processMessage_timers, processMessage_chatState.
  split; [rewrite <- processMessage_chatState; now apply invariant_processMessage |].
  destruct (stage (chatState p)) eqn:Hstage.
  - destruct (matchEvent (toLowerCase host message)) as [[event keywords] |] eqn:E.
    + apply matchEvent_known in E.
      destruct (choose_ok p event [] (random p) Hok Hstage E) as (_ & H1 & H2 & H3).
      repeat split; assumption.
    + repeat split; assumption.
  - split; [| split]; [exact Hact | | exact Htimers].
    intros _. reflexivity.
  - split; [| split]; [exact Hact | intros _; reflexivity |].
    apply Forall_app. split; [exact Htimers |].
    constructor; [| constructor]. cbn.
    destruct Hinv as [Hev Hloc]. rewrite Hstage in Hev, Hloc. split.
    + now apply Hloc.
    + apply Hev. now right.
Qed.

Lemma turn_ok host resolve fetchWeather analyze (p p' : Page) :
  turn host resolve fetchWeather analyze p p' -> page_ok p -> page_ok p'.
Proof.
  intros Hturn Hok.
  destruct Hturn as [input p | value emoji label p Hshown Hin | p | n t p Hnth].
  - unfold sendAndProcess. destruct (blank input); [exact Hok |].
    exact (processMessage_ok host input (addMessage input user None None p) Hok).
  - unfold quickRepliesShown in Hshown.
    destruct (stage (chatState p)) eqn:Hstage; try discriminate.
    pose proof (eventTypes_known _ _ _ Hin) as Hvalue.
    unfold handleQuickReply, addRandomResponse, draw.
    cbn [random addMessage setChatState setRandom chatState messages timers].
    exact (choose_ok p value _ _ Hok Hstage Hvalue).
  - destruct Hok as (_ & _ & _ & Htimers).
    split; [apply invariant_initial |]. split; [intros e [=] |].
    split; [intros H; now cbn in H | exact Htimers].
  - destruct Hok as (Hinv & Hact & Hdate & Htimers).
    pose proof (removeTimer_Forall _ n _ Htimers) as Hrest.
    destruct t as [render message | location eventType date |]; cbn [fire].
    + apply nth_error_In in Hnth. rewrite Forall_forall in Htimers.
      destruct (Htimers _ Hnth).
    + unfold page_ok. rewrite report_chatState. cbn [chatState clearTimer].
      split; [exact Hinv |]. split; [exact Hact |]. split; [exact Hdate |].
      unfold generateRealWeatherReport.
      destruct (reportPipeline _ _ _ _ _ _ _) as [[[weatherData result] | err] g'];
        cbn [timers setTimeout addMessage setRandom clearTimer].
      * apply Forall_app. split; [exact Hrest | repeat constructor].
      * exact Hrest.
    + split; [apply invariant_initial |]. split; [intros e [=] |].
      split; [intros H; now cbn in H | exact Hrest].
Qed.

Lemma served_ok host resolve fetchWeather analyze (g : Rng) (p : Page) :
  served host resolve fetchWeather analyze g p -> page_ok p.
Proof.
  induction 1 as [| p p' Hserved IH Hturn].
  - apply page_ok_initial.
  - eapply turn_ok; eassumption.
Qed.

(** A send that is served at once is a send of the page followed by the
    timer it has set. *)
Lemma sendAndProcess_fire host resolve fetchWeather analyze (input : string)
  (p : Page) :
  blank input = false ->
  sendAndProcess host input p
  = fire host resolve fetchWeather analyze (timer_process (chatState p) input)
         (clearTimer (List.length (timers p)) (handleSend input p)).
Proof.
  intros Hblank. unfold sendAndProcess, handleSend. rewrite Hblank.
  cbn [fire]. f_equal.
  unfold clearTimer, setTimeout, addMessage. cbn [chatState messages random timers].
  now rewrite removeTimer_last.
Qed.

Lemma turn_steps host resolve fetchWeather analyze (g : Rng) (p p' : Page) :
  reachable host resolve fetchWeather analyze g p ->
  turn host resolve fetchWeather analyze p p' ->
  reachable host resolve fetchWeather analyze g p'.
Proof.
  intros Hreach Hturn.
  destruct Hturn as [input p | value emoji label p Hshown Hin | p | n t p Hnth].
  - destruct (blank input) eqn:Hblank.
    + unfold sendAndProcess. rewrite Hblank. exact Hreach.
    + rewrite (sendAndProcess_fire host resolve fetchWeather analyze _ _ Hblank).
      eapply reach_step; [eapply reach_step; [exact Hreach | apply step_send] |].
      apply step_timer. unfold handleSend. rewrite Hblank.
      cbn [timers setTimeout addMessage]. apply nth_error_last.
  - eapply reach_step; [exact Hreach |]. now apply step_quick with (emoji := emoji).
  - eapply reach_step; [exact Hreach |]. apply step_new.
  - eapply reach_step; [exact Hreach |]. now apply step_timer.
Qed.

Lemma served_reachable host resolve fetchWeather analyze (g : Rng) (p : Page) :
  served host resolve fetchWeather analyze g p ->
  reachable host resolve fetchWeather analyze g p.
Proof.
  induction 1 as [| p p' Hserved IH Hturn].
  - apply reach_init.
  - eapply turn_steps; eassumption.
Qed.

(** *** The runs of the page as it is wired *)

Lemma reach_send (host : Host) (g : Rng) (input : string) (p : Page) :
  pageReachable host g p -> pageReachable host g (handleSend input p).
Proof. intros H. eapply reach_step; [exact H | apply step_send]. Qed.

Lemma reach_quick (host : Host) (g : Rng) (value emoji label : string) (p : Page) :
  pageReachable host g p -> quickRepliesShown p = true ->
  In (value, emoji, label) eventTypes ->
  pageReachable host g (handleQuickReply host value label p).
Proof.
  intros H Hshown Hin. eapply reach_step; [exact H |].
  now apply step_quick with (emoji := emoji).
Qed.

Lemma reach_fire (host : Host) (g : Rng) (t : Timer) (n : nat) (p : Page) :
  pageReachable host g p -> nth_error (timers p) n = Some t ->
  pageReachable host g
    (fire host (getCoordinatesFromLocation host) (getNASAWeatherData host)
          analyzeWithGemini t (clearTimer n p)).
Proof. intros H Hnth. eapply reach_step; [exact H | now apply step_timer]. Qed.

(** C9, as worded, fails on the page as it is wired, because a sent text is
    processed 300 ms later with the stage of the render that sent it.  Two
    dates are sent one after the other and both reports are shown, so that
    two follow-ups are pending.  The first resets the conversation; the
    user picks hiking and sends "Tokyo"; the second follow-up resets the
    conversation again; then "Tokyo" is processed as a location.  The stage
    is ['date'] and the location is set, but the activity is not. *)
Lemma stale_send_breaks_invariant :
  pageReachable offlineHost evenDraws racedPage
  /\ chatState racedPage
     = {| stage := stage_date; eventType := None; location := Some "Tokyo";
          date := None |}
  /\ ~ invariant (chatState racedPage).
Proof.
  assert (Hstate : chatState racedPage
                   = {| stage := stage_date; eventType := None;
                        location := Some "Tokyo"; date := None |})
    by (vm_compute; reflexivity).
  split; [| split; [exact Hstate |]].
  - cbv beta zeta delta [racedPage twoFollowUps wiredFire].
    apply reach_fire; [| vm_compute; reflexivity].
    apply reach_fire; [| vm_compute; reflexivity].
    apply reach_send.
    apply reach_quick with (emoji := "🥾"); [| vm_compute; reflexivity | cbn; auto 10].
    apply reach_fire; [| vm_compute; reflexivity].
    apply reach_fire; [| vm_compute; reflexivity].
    apply reach_fire; [| vm_compute; reflexivity].
    apply reach_fire; [| vm_compute; reflexivity].
    apply reach_send.
    apply reach_fire; [| vm_compute; reflexivity].
    apply reach_send.
    apply reach_fire; [| vm_compute; reflexivity].
    apply reach_send.
    apply reach_quick with (emoji := "🥾"); [| reflexivity | cbn; auto 10].
    apply reach_init.
  - rewrite Hstate. intros [[_ Hact] _]. cbn in Hact.
    apply Hact; [right; reflexivity | reflexivity].
Qed.

(** C9, when the turns are served one at a time.  In every state that the
    page reaches from its initial state when every sent text is processed
    before anything else happens (whatever the user sends or clicks,
    whenever a new chat is started, and whichever report or follow-up
    timers fire, reports that fail included), the activity is set exactly
    when the stage is past ['event'] and the location exactly when the
    stage is past ['location'].  Every such state is a state of the page:
    the processing of each text is the timer of its send, fired first. *)
Theorem conversation_invariant
  (host : Host)
  (resolve : option string -> Eff Coords.t)
  (fetchWeather : number -> number -> string -> Eff NASAWeatherData)
  (analyze : NASAWeatherData -> string -> string -> Eff GeminiAnalysis)
  (g : Rng) (p : Page) :
  served host resolve fetchWeather analyze g p ->
  invariant (chatState p) /\ reachable host resolve fetchWeather analyze g p.
Proof.
  intros H. split.
  - exact (proj1 (served_ok _ _ _ _ _ _ H)).
  - now apply served_reachable.
Qed.

Lemma conversation_invariant_witness :
  pageServed offlineHost evenDraws
    (sendAndProcess offlineHost "Paris"
       (handleQuickReply offlineHost "picnic" "Picnic" (initialPage evenDraws)))
  /\ chatState
       (sendAndProcess offlineHost "Paris"
          (handleQuickReply offlineHost "picnic" "Picnic" (initialPage evenDraws)))
     = {| stage := stage_date; eventType := Some "picnic"; location := Some "Paris";
          date := None |}
  /\ invariant
       (chatState
          (sendAndProcess offlineHost "Paris"
             (handleQuickReply offlineHost "picnic" "Picnic" (initialPage evenDraws)))).
Proof.
  assert (H : pageServed offlineHost evenDraws
                (sendAndProcess offlineHost "Paris"
                   (handleQuickReply offlineHost "picnic" "Picnic"
                      (initialPage evenDraws)))).
  { eapply served_turn; [eapply served_turn; [apply served_init |] |].
    - apply turn_quick with (emoji := "🧺"); [reflexivity |].
      cbn. auto 10.
    - apply turn_send. }
  split; [exact H |]. split; [reflexivity |].
  exact (proj1 (conversation_invariant _ _ _ _ _ _ H)).
Defined.

(** The stage test on the buttons is what keeps the invariant: a quick
    reply handled while the date is awaited would leave a location set in
    the stage ['location']. *)
Remark quick_reply_needs_its_guard :
  invariant (chatState awaitingDate)
  /\ quickRepliesShown awaitingDate = false
  /\ ~ invariant (chatState (handleQuickReply offlineHost "hiking" "Hiking" awaitingDate)).
Proof.
  split; [| split; [reflexivity |]].
  - unfold invariant, past_activity, past_location. cbn.
    split; split; intros H; try discriminate; auto.
  - intros [_ Hloc]. cbn in Hloc.
    assert (H : past_location stage_location) by (apply Hloc; discriminate).
    discriminate H.
Qed.

(** ** A complete report

    The scenario of the specification, offline: the conversation awaits the
    date of a picnic in Paris, the user sends it, the report timer fires
    and then its follow-up.  The report carries the five scores of the
    synthetic July observation (25 C, 4.5 mm, 60 %, 12.5 km/h), the
    follow-up resets the conversation. *)
Example report_then_reset :
  timers shownReport = [timer_followup]
  /\ chatState shownReport
     = {| stage := stage_date; eventType := Some "picnic";
          location := Some "Paris"; date := Some "2025-07-04" |}
  /\ option_map (fun r => map Qred (RiskData_values r))
       (riskData (List.last (messages shownReport) (List.hd
          {| text := ""; sender := bot; riskData := None; dataSources := None |}
          initialMessages)))
     = Some [15; 5; 40; 93; 22]
  /\ chatState completedReport = initialChatState
  /\ timers completedReport = [].
Proof. repeat split; vm_compute; reflexivity. Qed.

(** The randomness sits upstream of the scorer: the synthetic observation
    does depend on the draws. *)
Remark fallback_depends_on_draws :
  exists g1 g2 a b,
    fst (generateFallbackData offlineHost 48.8566 2.3522 "2025-07-04" g1) = Return a
    /\ fst (generateFallbackData offlineHost 48.8566 2.3522 "2025-07-04" g2) = Return b
    /\ ~ temperature a == temperature b.
Proof.
  exists evenDraws, {| draws := fun _ => 0.25; next := 0 |}.
  do 2 eexists. split; [reflexivity |]. split; [reflexivity |].
  intros H. vm_compute in H. discriminate.
Qed.

(** * Further properties of the page *)

(** ** Risk scorer: what the adjustments do *)

Lemma clamp_raise (b a : number) :
  in_range b -> 0 <= a -> b <= clamp (b + a) /\ clamp (b + a) <= b + a.
Proof.
  intros [Hlo Hhi] Ha. unfold clamp, Math_max, Math_min. split.
  - apply Qle_trans with (Qmin 95 (b + a)); [| apply Q.le_max_r].
    apply Q.min_glb; lra.
  - apply Q.max_lub; [lra | apply Q.le_min_r].
Qed.

(** Every amount of the table lies between 5 and 30. *)
Lemma adjustment_amount eventType k a :
  adjustmentOf eventType k = Some a -> 5 <= a /\ a <= 30.
Proof.
  unfold adjustmentOf.
  pose proof (adjustments_cases eventType) as H.
  set (adjustments := or_else (lookup eventAdjustments eventType) []) in *.
  clearbody adjustments. cbn in H.
  repeat (destruct H as [<- | H];
          [destruct k; cbn; intros [= <-]; split; lra |]).
  destruct H.
Qed.

(** X1. An adjustment never lowers a score and never adds more than its
    amount: each returned score lies between the base score and the base
    score plus the activity's amount for the category (nothing, when the
    category is not listed).  An activity that is not in the table leaves
    the five base scores as they are. *)
Theorem adjustments_only_raise (weatherData : NASAWeatherData) (eventType : string)
  (k : RiskKey) :
  risk_get (baseRisks weatherData) k
    <= risk_get (calculateRisksFromRealData weatherData eventType) k
  /\ risk_get (calculateRisksFromRealData weatherData eventType) k
       <= risk_get (baseRisks weatherData) k + or_else (adjustmentOf eventType k) 0
  /\ (lookup eventAdjustments eventType = None ->
      calculateRisksFromRealData weatherData eventType = baseRisks weatherData).
Proof.
  rewrite calculateRisks_get.
  pose proof (baseRisks_in_range weatherData k) as Hbase.
  split; [| split].
  - destruct (adjustmentOf eventType k) as [a |] eqn:E; [| apply Qle_refl].
    apply adjustment_amount in E. apply clamp_raise; [exact Hbase | lra].
  - destruct (adjustmentOf eventType k) as [a |] eqn:E; cbn [or_else]; [| lra].
    apply adjustment_amount in E. apply clamp_raise; [exact Hbase | lra].
  - intros Hnone. unfold calculateRisksFromRealData. now rewrite Hnone.
Qed.

(** X2. No temperature is both hot and cold: of the base Hot and Cold
    scores, at least one sits at the floor of 5. *)
Theorem hot_or_cold_at_floor (weatherData : NASAWeatherData) :
  hot (baseRisks weatherData) == 5 \/ cold (baseRisks weatherData) == 5.
Proof.
  cbn [baseRisks hot cold]. unfold clamp, Math_max, Math_min.
  destruct (Qlt_le_dec (temperature weatherData) 20) as [H | H].
  - left. rewrite Q.max_l; [reflexivity |].
    apply Qle_trans with ((temperature weatherData - 25) * 3);
      [apply Q.le_min_r | lra].
  - right. rewrite Q.max_l; [reflexivity |].
    apply Qle_trans with ((5 - temperature weatherData) * 4);
      [apply Q.le_min_r | lra].
Qed.

(** X3. For a fixed activity the Hot score does not decrease and the Cold
    score does not increase when the temperature grows; the Wet score does
    not decrease when the humidity grows at equal precipitation. *)
Theorem scorer_monotone_in_temperature_and_humidity (eventType : string)
  (a b : NASAWeatherData) :
  (temperature a <= temperature b ->
   hot (calculateRisksFromRealData a eventType)
     <= hot (calculateRisksFromRealData b eventType)
   /\ cold (calculateRisksFromRealData b eventType)
        <= cold (calculateRisksFromRealData a eventType))
  /\ (precipitation a == precipitation b -> humidity a <= humidity b ->
      wet (calculateRisksFromRealData a eventType)
        <= wet (calculateRisksFromRealData b eventType)).
Proof.
  split.
  - intros Hle. split.
    + change (risk_get (calculateRisksFromRealData a eventType) key_hot
              <= risk_get (calculateRisksFromRealData b eventType) key_hot).
      rewrite !calculateRisks_get.
      assert (Hbase : risk_get (baseRisks a) key_hot <= risk_get (baseRisks b) key_hot)
        by (base_field; apply clamp_mono; lra).
      destruct (adjustmentOf eventType key_hot); [apply clamp_mono; lra | exact Hbase].
    + change (risk_get (calculateRisksFromRealData b eventType) key_cold
              <= risk_get (calculateRisksFromRealData a eventType) key_cold).
      rewrite !calculateRisks_get.
      assert (Hbase : risk_get (baseRisks b) key_cold <= risk_get (baseRisks a) key_cold)
        by (base_field; apply clamp_mono; lra).
      destruct (adjustmentOf eventType key_cold); [apply clamp_mono; lra | exact Hbase].
  - intros Hp Hle.
    change (risk_get (calculateRisksFromRealData a eventType) key_wet
            <= risk_get (calculateRisksFromRealData b eventType) key_wet).
    rewrite !calculateRisks_get.
    assert (Hbase : risk_get (baseRisks a) key_wet <= risk_get (baseRisks b) key_wet)
      by (base_field; apply clamp_mono; lra).
    destruct (adjustmentOf eventType key_wet); [apply clamp_mono; lra | exact Hbase].
Qed.

Lemma scorer_monotone_in_temperature_and_humidity_witness :
  temperature stormyDay <= temperature mildDay
  /\ hot (calculateRisksFromRealData stormyDay "sports")
       <= hot (calculateRisksFromRealData mildDay "sports")
  /\ cold (calculateRisksFromRealData mildDay "sports")
       <= cold (calculateRisksFromRealData stormyDay "sports")
  /\ precipitation mildDay == precipitation breezyDay
  /\ humidity mildDay <= humidity breezyDay
  /\ wet (calculateRisksFromRealData mildDay "sports")
       <= wet (calculateRisksFromRealData breezyDay "sports").
Proof.
  assert (Ht : temperature stormyDay <= temperature mildDay)
    by (vm_compute; discriminate).
  assert (Hp : precipitation mildDay == precipitation breezyDay) by reflexivity.
  assert (Hh : humidity mildDay <= humidity breezyDay) by (vm_compute; discriminate).
  destruct (proj1 (scorer_monotone_in_temperature_and_humidity "sports"
                     stormyDay mildDay) Ht) as [Hhot Hcold].
  pose proof (proj2 (scorer_monotone_in_temperature_and_humidity "sports"
                       mildDay breezyDay) Hp Hh) as Hwet.
  repeat split; assumption.
Defined.

(** X4. The scorer reads the temperature, the precipitation, the humidity
    and the wind speed, and nothing else: observations that agree on these
    four get the same scores, whatever their cloud cover, coordinates and
    label. *)
Theorem scorer_reads_four_fields (eventType : string) (a b : NASAWeatherData) :
  temperature a == temperature b -> precipitation a == precipitation b ->
  humidity a == humidity b -> windSpeed a == windSpeed b ->
  same_risks (calculateRisksFromRealData a eventType)
             (calculateRisksFromRealData b eventType).
Proof.
  intros Ht Hp Hh Hw k. rewrite !calculateRisks_get.
  assert (Hk : risk_get (baseRisks a) k == risk_get (baseRisks b) k)
    by (destruct k; base_field; apply clamp_proper; unfold Math_abs;
        rewrite ?Ht, ?Hp, ?Hh, ?Hw; reflexivity).
  destruct (adjustmentOf eventType k); [apply clamp_proper; now rewrite Hk | exact Hk].
Qed.

Lemma scorer_reads_four_fields_witness :
  cloudCover mildDay < cloudCover cloudyTokyo
  /\ ~ lat mildDay == lat cloudyTokyo
  /\ same_risks (calculateRisksFromRealData mildDay "camping")
                (calculateRisksFromRealData cloudyTokyo "camping").
Proof.
  split; [vm_compute; reflexivity |].
  split; [intros H; vm_compute in H; discriminate |].
  apply (scorer_reads_four_fields "camping" mildDay cloudyTokyo); reflexivity.
Defined.

(** ** The tiles of a report *)

Lemma Math_round_in_range (x : number) :
  in_range x -> (5 <= Math_round x <= 95)%Z.
Proof.
  intros [Hlo Hhi]. unfold Math_round. split.
  - assert (H : 5 <= x + 0.5) by lra.
    exact (Qfloor_resp_le 5 (x + 0.5) H).
  - assert (H : x + 0.5 <= 95.5) by lra.
    exact (Qfloor_resp_le (x + 0.5) 95.5 H).
Qed.

(** X5. The five tiles under a report show, in the order Hot, Cold, Windy,
    Wet, Humid, whole percentages between 5 and 95, for every observation
    and activity. *)
Theorem risk_tiles_in_range (weatherData : NASAWeatherData) (eventType : string) :
  map tile_label (riskTiles (calculateRisksFromRealData weatherData eventType))
  = ["Hot"; "Cold"; "Windy"; "Wet"; "Humid"]
  /\ Forall (fun tile => (5 <= tile_value tile <= 95)%Z)
            (riskTiles (calculateRisksFromRealData weatherData eventType)).
Proof.
  split; [reflexivity |].
  assert (H : risks_in_range (calculateRisksFromRealData weatherData eventType))
    by (apply forEach_in_range, baseRisks_in_range).
  unfold riskTiles, riskTileOrder. cbn [map].
  repeat constructor; cbn [tile_value]; apply Math_round_in_range, H.
Qed.

(** ** Forecast provider: the synthetic observation *)

(** The synthetic observation, draw by draw. *)
Lemma generateFallbackData_eq (host : Host) (lat lon : number) (date : string) (g : Rng) :
  generateFallbackData host lat lon date g
  = (Return {| temperature := tempBaseOf (getMonth host date) (isNorthernOf lat)
                              + (draws g (next g) - 0.5) * 10;
               precipitation := Math_max 0 (2 + draws g (1 + next g)%nat * 5);
               humidity := 60 + (draws g (2 + next g)%nat - 0.5) * 30;
               windSpeed := 5 + draws g (3 + next g)%nat * 15;
               cloudCover := draws g (4 + next g)%nat * 100;
               lat := lat;
               lon := lon;
               locationName := "Estimated Data" |},
     {| draws := draws g; next := 5 + next g |}).
Proof. reflexivity. Qed.

Lemma tempBaseOf_unparsed (isNorthern : bool) : tempBaseOf None isNorthern = 20.
Proof. destruct isNorthern; reflexivity. Qed.

(** The four seasons cover every month and do not overlap. *)
Lemma tempBaseOf_parsed (m : Z) (isNorthern : bool) :
  tempBaseOf (Some m) isNorthern
  = if ((m <=? 2) || (11 <=? m))%Z then (if isNorthern then 5 else 25)
    else if (m <=? 5)%Z then (if isNorthern then 15 else 18)
    else if (m <=? 8)%Z then (if isNorthern then 25 else 5)
    else (if isNorthern then 18 else 15).
Proof.
  unfold tempBaseOf, month_ge, month_le.
  destruct (Z.leb_spec m 2), (Z.leb_spec 11 m), (Z.leb_spec 3 m), (Z.leb_spec m 5),
    (Z.leb_spec 6 m), (Z.leb_spec m 8), (Z.leb_spec 9 m), (Z.leb_spec m 10);
    try lia; destruct isNorthern; reflexivity.
Qed.

Lemma tempBaseOf_range (month : option Z) (isNorthern : bool) :
  5 <= tempBaseOf month isNorthern /\ tempBaseOf month isNorthern <= 25.
Proof.
  destruct month as [m |]; [| rewrite tempBaseOf_unparsed; split; lra].
  rewrite tempBaseOf_parsed.
  destruct ((m <=? 2) || (11 <=? m))%Z, (m <=? 5)%Z, (m <=? 8)%Z, isNorthern;
    split; lra.
Qed.

(** X6. When the draws of [Math.random] lie in [0, 1), the synthetic
    observation has a temperature between 0 and 30, a precipitation
    between 2 and 7, a humidity between 45 and 75, a wind speed between 5
    and 20 and a cloud cover between 0 and 100, the ends included; it
    carries the coordinates it was asked for and the label "Estimated
    Data", and it uses up exactly five draws. *)
Theorem fallback_ranges (host : Host) (la lo : number) (date : string) (g : Rng) :
  unit_interval g ->
  exists weatherData,
    generateFallbackData host la lo date g
    = (Return weatherData, {| draws := draws g; next := 5 + next g |})
    /\ (0 <= temperature weatherData /\ temperature weatherData <= 30)
    /\ (2 <= precipitation weatherData /\ precipitation weatherData <= 7)
    /\ (45 <= humidity weatherData /\ humidity weatherData <= 75)
    /\ (5 <= windSpeed weatherData /\ windSpeed weatherData <= 20)
    /\ (0 <= cloudCover weatherData /\ cloudCover weatherData <= 100)
    /\ lat weatherData = la
    /\ lon weatherData = lo
    /\ locationName weatherData = "Estimated Data".
Proof.
  intros Hunit. rewrite generateFallbackData_eq. eexists. split; [reflexivity |].
  cbn [temperature precipitation humidity windSpeed cloudCover lat lon locationName].
  pose proof (tempBaseOf_range (getMonth host date) (isNorthernOf la)) as [? ?].
  pose proof (Hunit (next g)) as [? ?].
  pose proof (Hunit (1 + next g)%nat) as [? ?].
  pose proof (Hunit (2 + next g)%nat) as [? ?].
  pose proof (Hunit (3 + next g)%nat) as [? ?].
  pose proof (Hunit (4 + next g)%nat) as [? ?].
  unfold Math_max.
  assert (Hp : Qmax 0 (2 + draws g (1 + next g)%nat * 5)
               == 2 + draws g (1 + next g)%nat * 5) by (apply Q.max_r; lra).
  rewrite Hp.
  repeat split; try reflexivity; lra.
Qed.

Lemma fallback_ranges_witness :
  unit_interval evenDraws
  /\ fst (generateFallbackData offlineHost 48.8566 2.3522 "2025-07-04" evenDraws)
     = Return {| temperature := 25 + (0.5 - 0.5) * 10;
                 precipitation := Math_max 0 (2 + 0.5 * 5);
                 humidity := 60 + (0.5 - 0.5) * 30;
                 windSpeed := 5 + 0.5 * 15;
                 cloudCover := 0.5 * 100;
                 lat := 48.8566; lon := 2.3522;
                 locationName := "Estimated Data" |}.
Proof.
  split; [exact evenDraws_unit_interval |].
  destruct (fallback_ranges offlineHost 48.8566 2.3522 "2025-07-04" evenDraws
              evenDraws_unit_interval) as (weatherData & Hrun & _).
  rewrite Hrun. cbn [fst]. f_equal.
  vm_compute in Hrun. now injection Hrun as <-.
Defined.

(** X7. The synthetic temperature follows the season of the hemisphere
    ([lat > 0] is northern, the equator counts as southern): when
    [getMonth] gives 6, 7 or 8 it lies between 20 and 30 in the north and
    between 0 and 10 in the south, when it gives 11 or more, or 2 or less,
    it is the other way round, and for a date that the calendar cannot
    parse it lies between 15 and 25 in both (the ends included). *)
Theorem fallback_temperature_by_season (host : Host) (la lo : number) (date : string)
  (g : Rng) :
  unit_interval g ->
  exists weatherData g',
    generateFallbackData host la lo date g = (Return weatherData, g')
    /\ (getMonth host date = None ->
        15 <= temperature weatherData /\ temperature weatherData <= 25)
    /\ (forall m, getMonth host date = Some m -> (6 <= m <= 8)%Z ->
        (0 < la -> 20 <= temperature weatherData /\ temperature weatherData <= 30)
        /\ (la <= 0 -> 0 <= temperature weatherData /\ temperature weatherData <= 10))
    /\ (forall m, getMonth host date = Some m -> (m <= 2 \/ 11 <= m)%Z ->
        (0 < la -> 0 <= temperature weatherData /\ temperature weatherData <= 10)
        /\ (la <= 0 -> 20 <= temperature weatherData /\ temperature weatherData <= 30)).
Proof.
  intros Hunit. rewrite generateFallbackData_eq. do 2 eexists.
  split; [reflexivity |]. cbn [temperature].
  pose proof (Hunit (next g)) as [? ?].
  split; [| split].
  - intros ->. rewrite tempBaseOf_unparsed. split; lra.
  - intros m -> Hm. rewrite tempBaseOf_parsed.
    replace ((m <=? 2) || (11 <=? m))%Z with false by lia.
    replace (m <=? 5)%Z with false by lia.
    replace (m <=? 8)%Z with true by lia.
    unfold isNorthernOf.
    split; intros Hla; destruct (Qlt_le_dec 0 la); try (split; lra); exfalso; lra.
  - intros m -> Hm. rewrite tempBaseOf_parsed.
    replace ((m <=? 2) || (11 <=? m))%Z with true by lia.
    unfold isNorthernOf.
    split; intros Hla; destruct (Qlt_le_dec 0 la); try (split; lra); exfalso; lra.
Qed.

Lemma fallback_temperature_by_season_witness :
  unit_interval evenDraws
  /\ getMonth offlineHost "2025-07-04" = Some 6%Z
  /\ exists weatherData g',
       generateFallbackData offlineHost (-33.8688) 151.2093 "2025-07-04" evenDraws
       = (Return weatherData, g')
       /\ 0 <= temperature weatherData /\ temperature weatherData <= 10.
Proof.
  split; [exact evenDraws_unit_interval |]. split; [reflexivity |].
  destruct (fallback_temperature_by_season offlineHost (-33.8688) 151.2093
              "2025-07-04" evenDraws evenDraws_unit_interval)
    as (weatherData & g' & Hrun & _ & Hsummer & _).
  exists weatherData, g'. split; [exact Hrun |].
  apply (Hsummer 6%Z eq_refl); [lia | vm_compute; discriminate].
Defined.

(** X8. The label of an observation tells where it comes from.  When the
    forecast service gives daily data, the provider returns them as they
    are, under the label "Current Location", with the mean of the day's
    maximum and minimum as temperature (between the two, when the minimum
    is not above the maximum), and draws no random number; otherwise the
    observation is labelled "Estimated Data" and five draws are used. *)
Theorem provider_live_or_estimated (host : Host) (la lo : number) (date : string)
  (g : Rng) :
  (forall daily,
      forecast host la lo date = Return (Some daily) ->
      exists weatherData,
        getNASAWeatherData host la lo date g = (Return weatherData, g)
        /\ locationName weatherData = "Current Location"
        /\ precipitation weatherData = precipitation_sum daily
        /\ humidity weatherData = relative_humidity_2m_mean daily
        /\ windSpeed weatherData = wind_speed_10m_max daily
        /\ cloudCover weatherData = cloud_cover_mean daily
        /\ (temperature_2m_min daily <= temperature_2m_max daily ->
            temperature_2m_min daily <= temperature weatherData
            /\ temperature weatherData <= temperature_2m_max daily))
  /\ (forecastUnavailable host la lo date ->
      exists weatherData,
        getNASAWeatherData host la lo date g
        = (Return weatherData, {| draws := draws g; next := 5 + next g |})
        /\ locationName weatherData = "Estimated Data").
Proof.
  split.
  - intros daily E. eexists. split.
    + unfold getNASAWeatherData, try_catch, JS.bind, await. rewrite E. reflexivity.
    + cbn [locationName precipitation humidity windSpeed cloudCover temperature].
      repeat split; try reflexivity.
      * apply Qle_shift_div_l; lra.
      * apply Qle_shift_div_r; lra.
  - intros H. rewrite provider_fallback by exact H.
    rewrite generateFallbackData_eq. eexists. split; reflexivity.
Qed.

Lemma provider_live_or_estimated_witness :
  (exists weatherData,
      getNASAWeatherData liveHost 48.8534 2.3488 "2025-07-04" evenDraws
      = (Return weatherData, evenDraws)
      /\ locationName weatherData = "Current Location"
      /\ 15 <= temperature weatherData /\ temperature weatherData <= 27)
  /\ forecastUnavailable offlineHost 48.8534 2.3488 "2025-07-04"
  /\ (exists weatherData,
         getNASAWeatherData offlineHost 48.8534 2.3488 "2025-07-04" evenDraws
         = (Return weatherData, {| draws := draws evenDraws; next := 5 |})
         /\ locationName weatherData = "Estimated Data").
Proof.
  destruct (provider_live_or_estimated liveHost 48.8534 2.3488 "2025-07-04" evenDraws)
    as [Hlive _].
  destruct (provider_live_or_estimated offlineHost 48.8534 2.3488 "2025-07-04" evenDraws)
    as [_ Hoff].
  split; [| split; [exact I | exact (Hoff I)]].
  destruct (Hlive _ eq_refl) as (weatherData & Hrun & Hname & _ & _ & _ & _ & Hmean).
  exists weatherData. split; [exact Hrun |]. split; [exact Hname |].
  apply Hmean. vm_compute. discriminate.
Defined.

(** ** Synthetic data and the narrative *)

Lemma clamp_lower (x bound : number) : bound <= 95 -> bound <= x -> bound <= clamp x.
Proof.
  intros Hb Hx. unfold clamp, Math_max, Math_min.
  apply Qle_trans with (Qmin 95 x); [apply Q.min_glb; lra | apply Q.le_max_r].
Qed.

Lemma wet_above_base (weatherData : NASAWeatherData) (eventType : string) :
  wet (baseRisks weatherData) <= wet (calculateRisksFromRealData weatherData eventType).
Proof.
  change (risk_get (baseRisks weatherData) key_wet
          <= risk_get (calculateRisksFromRealData weatherData eventType) key_wet).
  rewrite calculateRisks_get.
  pose proof (baseRisks_in_range weatherData key_wet) as Hbase.
  destruct (adjustmentOf eventType key_wet) as [a |] eqn:E; [| apply Qle_refl].
  apply adjustment_amount in E. apply clamp_raise; [exact Hbase | lra].
Qed.

(** The synthetic observation is damp: at least 2 mm and 45 %. *)
Lemma fallback_is_damp (host : Host) (la lo : number) (date : string) (g : Rng) :
  unit_interval g ->
  exists weatherData,
    generateFallbackData host la lo date g
    = (Return weatherData, {| draws := draws g; next := 5 + next g |})
    /\ 2 <= precipitation weatherData /\ 45 <= humidity weatherData.
Proof.
  intros Hunit. rewrite generateFallbackData_eq. eexists. split; [reflexivity |].
  cbn [precipitation humidity].
  pose proof (Hunit (1 + next g)%nat) as [? ?].
  pose proof (Hunit (2 + next g)%nat) as [? ?].
  split; [| lra].
  apply Qle_trans with (2 + draws g (1 + next g)%nat * 5); [lra | apply Q.le_max_r].
Qed.

(** X9. On estimated data the narrative is never the favourable one: when
    the forecast is unavailable and the draws lie in [0, 1), the Wet score
    is at least 33.5 for every activity, so the maximum is at least 30 and
    the text is the moderate or the high-risk one. *)
Theorem estimated_data_never_excellent (host : Host) (la lo : number)
  (date eventType : string) (g : Rng) :
  forecastUnavailable host la lo date -> unit_interval g ->
  exists weatherData g',
    getNASAWeatherData host la lo date g = (Return weatherData, g')
    /\ 33.5 <= wet (calculateRisksFromRealData weatherData eventType)
    /\ 30 <= maxRiskOf (risks (simulateGeminiAnalysis weatherData eventType date))
    /\ exists maxRiskKey,
         analysis (simulateGeminiAnalysis weatherData eventType date)
         = analysis_header weatherData date
             ++ analysis_moderate weatherData eventType
                  (maxRiskOf (calculateRisksFromRealData weatherData eventType))
                  (Some maxRiskKey)
         \/ analysis (simulateGeminiAnalysis weatherData eventType date)
            = analysis_header weatherData date
                ++ analysis_high weatherData eventType
                     (maxRiskOf (calculateRisksFromRealData weatherData eventType))
                     (Some maxRiskKey).
Proof.
  intros Hoff Hunit.
  destruct (fallback_is_damp host la lo date g Hunit) as (w & Hrun & Hp & Hh).
  exists w. eexists. split; [rewrite provider_fallback by exact Hoff; exact Hrun |].
  assert (Hwet : 33.5 <= wet (calculateRisksFromRealData w eventType)).
  { apply Qle_trans with (wet (baseRisks w)); [| apply wet_above_base].
    cbn [baseRisks wet]. apply clamp_lower; lra. }
  assert (Hmax : 30 <= maxRiskOf (calculateRisksFromRealData w eventType)).
  { pose proof (maxRisk_upper (calculateRisksFromRealData w eventType) key_wet) as H.
    cbn [risk_get] in H. lra. }
  split; [exact Hwet |]. split; [exact Hmax |].
  destruct (maxRiskKey_first (calculateRisksFromRealData w eventType))
    as (k & Hkey & _).
  exists k. unfold simulateGeminiAnalysis. cbn [analysis]. rewrite Hkey.
  destruct (Qlt_le_dec (maxRiskOf (calculateRisksFromRealData w eventType)) 30)
    as [H | _]; [exfalso; lra |].
  destruct (Qlt_le_dec (maxRiskOf (calculateRisksFromRealData w eventType)) 60);
    [left | right]; reflexivity.
Qed.

Lemma estimated_data_never_excellent_witness :
  forecastUnavailable offlineHost 48.8566 2.3522 "2025-07-04"
  /\ unit_interval evenDraws
  /\ exists weatherData g',
       getNASAWeatherData offlineHost 48.8566 2.3522 "2025-07-04" evenDraws
       = (Return weatherData, g')
       /\ 30 <= maxRiskOf (risks (simulateGeminiAnalysis weatherData "vacation"
                                    "2025-07-04")).
Proof.
  split; [exact I |]. split; [exact evenDraws_unit_interval |].
  destruct (estimated_data_never_excellent offlineHost 48.8566 2.3522 "2025-07-04"
              "vacation" evenDraws I evenDraws_unit_interval)
    as (weatherData & g' & Hrun & _ & Hmax & _).
  exists weatherData, g'. split; [exact Hrun | exact Hmax].
Defined.

(** ** Dialogue controller: the replies of the bot *)

(** The index [Math.floor(r * n)] of a draw [r] in [0, 1) falls inside a
    list of [n] responses. *)
Lemma random_index_in_range (r : number) (n : nat) :
  0 <= r -> r < 1 -> (0 < n)%nat ->
  (0 <= Math_floor (r * inject_Z (Z.of_nat n))%Q < Z.of_nat n)%Z.
Proof.
  intros Hlo Hhi Hn. unfold Math_floor.
  assert (Hpos : 0 < inject_Z (Z.of_nat n))
    by (rewrite <- (Zlt_Qlt 0); lia).
  split.
  - assert (H : 0 <= r * inject_Z (Z.of_nat n)) by nra.
    exact (Qfloor_resp_le 0 _ H).
  - rewrite Zlt_Qlt.
    apply Qle_lt_trans with (r * inject_Z (Z.of_nat n)); [apply Qfloor_le | nra].
Qed.

(** X10. When the draw of [Math.random] lies in [0, 1), the bot's reply is
    one of the listed responses, never [undefined]: the reply is appended
    as a bot message without risk data, one draw is used, and the
    conversation state is not touched. *)
Theorem random_response_is_listed (responses : list string) (p : Page) :
  unit_interval (random p) -> responses <> [] ->
  exists response,
    In response responses
    /\ messages (addRandomResponse responses p)
       = (messages p ++ [ {| text := response; sender := bot; riskData := None;
                             dataSources := None |} ])%list
    /\ next (random (addRandomResponse responses p)) = S (next (random p))
    /\ chatState (addRandomResponse responses p) = chatState p.
Proof.
  intros Hunit Hne.
  destruct (Hunit (next (random p))) as [Hlo Hhi].
  assert (Hn : (0 < List.length responses)%nat)
    by (destruct responses; [contradiction | cbn; lia]).
  pose proof (random_index_in_range _ _ Hlo Hhi Hn) as [Hi0 Hi1].
  unfold addRandomResponse, draw. cbn [messages random chatState addMessage setRandom next].
  set (i := Math_floor (draws (random p) (next (random p))
                        * inject_Z (Z.of_nat (List.length responses)))) in *.
  exists (JS.index responses i). repeat split.
  unfold JS.index. destruct i as [| i | i]; try lia; apply nth_In; lia.
Qed.

Lemma random_response_is_listed_witness :
  unit_interval (random awaitingDate)
  /\ exists response,
       In response ["first"; "second"; "third"]
       /\ messages (addRandomResponse ["first"; "second"; "third"] awaitingDate)
          = (messages awaitingDate
             ++ [ {| text := response; sender := bot; riskData := None;
                     dataSources := None |} ])%list.
Proof.
  split; [exact evenDraws_unit_interval |].
  destruct (random_response_is_listed ["first"; "second"; "third"] awaitingDate
              evenDraws_unit_interval ltac:(discriminate))
    as (response & Hin & Hm & _).
  exists response. split; [exact Hin | exact Hm].
Defined.

(** X11. The table is read in order, so a keyword of the first activity
    wins over every other keyword: a text whose lower-cased form contains
    "vacation", "holiday", "beach" or "trip" selects vacation, whatever
    else it contains. *)
Theorem vacation_keywords_win (host : Host) (render : ChatState)
  (message keyword : string) (p : Page) :
  stage render = stage_event ->
  In keyword ["vacation"; "holiday"; "beach"; "trip"] ->
  is_substring keyword (toLowerCase host message) ->
  chatState (processMessage host render message p)
  = {| stage := stage_location; eventType := Some "vacation";
       location := location (chatState p); date := date (chatState p) |}.
Proof.
  intros Hstage Hin Hsub. rewrite processMessage_chatState, Hstage.
  assert (H : JS.some (fun k => includes (toLowerCase host message) k)
                      ["vacation"; "holiday"; "beach"; "trip"] = true)
    by (apply some_keyword; now exists keyword).
  unfold matchEvent, JS.find, eventMap. cbn [List.find snd].
  now rewrite H.
Qed.

Lemma vacation_keywords_win_witness :
  stage initialChatState = stage_event
  /\ is_substring "trip" (toLowerCase offlineHost "A camping TRIP")
  /\ eventType (chatState (processMessage offlineHost initialChatState "A camping TRIP"
                             (initialPage evenDraws)))
     = Some "vacation".
Proof.
  assert (H : is_substring "trip" (toLowerCase offlineHost "A camping TRIP"))
    by (apply includes_spec; vm_compute; reflexivity).
  split; [reflexivity |]. split; [exact H |].
  rewrite (vacation_keywords_win offlineHost initialChatState "A camping TRIP" "trip"
             (initialPage evenDraws) eq_refl ltac:(cbn; auto) H).
  reflexivity.
Defined.

(** X12. Typing does what the button does, on a runtime that lower-cases
    the letters A to Z of an ASCII text: for each of the six quick-reply
    buttons, sending the activity's name, the button's label or the
    sentence the button writes leaves the conversation in the state the
    button leaves it in. *)
Theorem typing_agrees_with_button (host : Host) (value emoji label : string)
  (p : Page) :
  lowers_ascii host ->
  In (value, emoji, label) eventTypes ->
  stage (chatState p) = stage_event ->
  forall message,
    In message [value; label; "I'm planning " ++ toLowerCase host label] ->
    chatState (processMessage host (chatState p) message p)
    = chatState (handleQuickReply host value label p).
Proof.
  intros Hlower Hin Hstage message Hmsg.
  rewrite processMessage_chatState, Hstage.
  unfold handleQuickReply. rewrite chatState_addRandomResponse.
  cbn [chatState setChatState addMessage].
  unfold eventTypes in Hin. cbn [In] in Hin.
  repeat (destruct Hin as [[= <- <- <-] | Hin];
          [rewrite Hlower in Hmsg by reflexivity;
           cbn [In] in Hmsg;
           repeat (destruct Hmsg as [<- | Hmsg];
                   [rewrite Hlower by reflexivity; reflexivity |]);
           destruct Hmsg |]).
  destruct Hin.
Qed.

Lemma typing_agrees_with_button_witness :
  lowers_ascii offlineHost
  /\ In ("vacation", "🏖️", "Beach Day") eventTypes
  /\ stage (chatState (initialPage evenDraws)) = stage_event
  /\ chatState (processMessage offlineHost (chatState (initialPage evenDraws))
                  "I'm planning beach day" (initialPage evenDraws))
     = chatState (handleQuickReply offlineHost "vacation" "Beach Day"
                    (initialPage evenDraws)).
Proof.
  assert (Hin : In ("vacation", "🏖️", "Beach Day") eventTypes) by (cbn; auto).
  split; [exact asciiLowerCase_lowers |].
  split; [exact Hin |]. split; [reflexivity |].
  apply (typing_agrees_with_button offlineHost "vacation" "🏖️" "Beach Day"
           (initialPage evenDraws) asciiLowerCase_lowers Hin eq_refl).
  cbn. auto.
Defined.

(** ** The report on the page as it is wired *)

Lemma resolver_returns (host : Host) (location : string) (g : Rng) :
  exists coords, getCoordinatesFromLocation host (Some location) g = (Return coords, g).
Proof.
  destruct (geocoding_cases host location) as [H | (first & rest & E)].
  - eexists. now apply resolver_fallback.
  - eexists. eapply resolver_live, E.
Qed.

Lemma provider_returns (host : Host) (la lo : number) (date : string) (g : Rng) :
  exists weatherData g', getNASAWeatherData host la lo date g = (Return weatherData, g').
Proof.
  destruct (forecast host la lo date) as [[daily |] | err] eqn:E.
  - do 2 eexists. unfold getNASAWeatherData, try_catch, JS.bind, await.
    rewrite E. reflexivity.
  - do 2 eexists. rewrite provider_fallback by (unfold forecastUnavailable; now rewrite E).
    apply generateFallbackData_eq.
  - do 2 eexists. rewrite provider_fallback by (unfold forecastUnavailable; now rewrite E).
    apply generateFallbackData_eq.
Qed.

(** X13. With a location that is set, the pipeline of the wired page never
    throws, for any host: the resolver, the provider and the analysis each
    return, and the analysis is the narrative of the observation that the
    provider gave, with five scores in [5, 95]. *)
Theorem wired_pipeline_returns (host : Host) (place : string)
  (activity : option string) (day : string) (g : Rng) :
  exists coords weatherData g',
    getCoordinatesFromLocation host (Some place) g = (Return coords, g)
    /\ getNASAWeatherData host (Coords.lat coords) (Coords.lon coords) day g
       = (Return weatherData, g')
    /\ reportPipeline (getCoordinatesFromLocation host) (getNASAWeatherData host)
         analyzeWithGemini (Some place) activity day g
       = (Return (weatherData,
                  simulateGeminiAnalysis weatherData (or_else activity "null") day), g')
    /\ risks_in_range
         (risks (simulateGeminiAnalysis weatherData (or_else activity "null") day)).
Proof.
  destruct (resolver_returns host place g) as [coords Hc].
  destruct (provider_returns host (Coords.lat coords) (Coords.lon coords) day g)
    as (weatherData & g' & Hw).
  exists coords, weatherData, g'. split; [exact Hc |]. split; [exact Hw |]. split.
  - unfold reportPipeline, JS.bind. rewrite Hc, Hw. reflexivity.
  - cbn [risks simulateGeminiAnalysis]. apply forEach_in_range, baseRisks_in_range.
Qed.

(** X14. The resolver rejects in one case only: the location is [null]
    and the live lookup of the text [null] gives nothing.  For a location
    that is a string it returns whatever the host does. *)
Theorem resolver_rejects_only_null (host : Host) (place : option string) (g : Rng) :
  (exists err, fst (getCoordinatesFromLocation host place g) = Throw err)
  <-> place = None /\ geocodingUnavailable host "null".
Proof.
  destruct place as [place |].
  - destruct (resolver_returns host place g) as [coords H]. rewrite H. cbn [fst].
    split; [intros [err E]; discriminate | intros [E _]; discriminate].
  - unfold getCoordinatesFromLocation, geocodingUnavailable, try_catch, JS.bind, await.
    cbn [or_else].
    destruct (geocoding host "null") as [[[| first rest] |] | err];
      cbv beta iota zeta delta [throw ret fst]; split.
    all: try (intros _; split; [reflexivity | exact I]).
    all: try (intros _; eexists; reflexivity).
    + intros [err' E]. discriminate E.
    + intros [_ []].
Qed.

(** ** Dialogue controller: further invariants of the page *)

(** *** In any order of the events *)

Lemma located_initial (g : Rng) : page_located (initialPage g).
Proof. split; [cbn; discriminate | constructor]. Qed.

Lemma step_located host resolve fetchWeather analyze (p p' : Page) :
  step host resolve fetchWeather analyze p p' -> page_located p -> page_located p'.
Proof.
  intros Hstep [Hstate Htimers].
  destruct Hstep as [input p | value emoji label p Hshown Hin | p | n t p Hnth].
  - unfold handleSend. destruct (blank input); [now split |].
    split; [exact Hstate |]. cbn [timers setTimeout addMessage].
    apply Forall_app. split; [exact Htimers |].
    constructor; [exact Hstate | constructor].
  - unfold handleQuickReply, addRandomResponse, draw.
    cbn [random addMessage setChatState setRandom chatState messages timers].
    split; [cbn; discriminate | exact Htimers].
  - split; [cbn; discriminate | exact Htimers].
  - pose proof (removeTimer_Forall _ n _ Htimers) as Hrest.
    assert (Ht : timer_located t)
      by (apply nth_error_In in Hnth; rewrite Forall_forall in Htimers; auto).
    destruct t as [render message | location eventType date |]; cbn [fire].
    + unfold page_located. rewrite processMessage_timers, processMessage_chatState.
      cbn [timer_located] in Ht. cbn [chatState timers clearTimer].
      destruct (stage render) eqn:Hrender.
      * split; [| exact Hrest].
        destruct (matchEvent (toLowerCase host message)) as [[event keywords] |];
          [cbn; discriminate | exact Hstate].
      * split; [cbn; discriminate | exact Hrest].
      * split; [exact Hstate |].
        apply Forall_app. split; [exact Hrest |].
        constructor; [cbn; now apply Ht | constructor].
    + unfold page_located. rewrite report_chatState. cbn [chatState clearTimer].
      split; [exact Hstate |].
      unfold generateRealWeatherReport.
      destruct (reportPipeline _ _ _ _ _ _ _) as [[[weatherData result] | err] g'];
        cbn [timers setTimeout addMessage setRandom clearTimer].
      * apply Forall_app. split; [exact Hrest | repeat constructor].
      * exact Hrest.
    + split; [cbn; discriminate | exact Hrest].
Qed.

Lemma reachable_located host resolve fetchWeather analyze (g : Rng) (p : Page) :
  reachable host resolve fetchWeather analyze g p -> page_located p.
Proof.
  induction 1 as [| p p' Hreach IH Hstep].
  - apply located_initial.
  - eapply step_located; eassumption.
Qed.

Lemma step_known host resolve fetchWeather analyze (p p' : Page) :
  step host resolve fetchWeather analyze p p' ->
  activity_known (chatState p) -> activity_known (chatState p').
Proof.
  intros Hstep Hact.
  destruct Hstep as [input p | value emoji label p Hshown Hin | p | n t p Hnth].
  - unfold handleSend. destruct (blank input); exact Hact.
  - pose proof (eventTypes_known _ _ _ Hin) as Hvalue.
    unfold handleQuickReply. rewrite chatState_addRandomResponse.
    intros e [= <-]. exact Hvalue.
  - intros e [=].
  - destruct t as [render message | location eventType date |]; cbn [fire].
    + rewrite processMessage_chatState. cbn [chatState clearTimer].
      destruct (stage render).
      * destruct (matchEvent (toLowerCase host message)) as [[event keywords] |] eqn:E;
          [| exact Hact].
        apply matchEvent_known in E. intros e [= <-]. exact E.
      * exact Hact.
      * exact Hact.
    + rewrite report_chatState. exact Hact.
    + intros e [=].
Qed.

Lemma reachable_known host resolve fetchWeather analyze (g : Rng) (p : Page) :
  reachable host resolve fetchWeather analyze g p -> activity_known (chatState p).
Proof.
  induction 1 as [| p p' Hreach IH Hstep].
  - intros e [=].
  - eapply step_known; eassumption.
Qed.

(** X15. In every state that the page can reach, in any order of the
    events, the activity, when set, is one of the six activities of the
    adjustment table, a location is set whenever the stage is ['date'], and
    every pending report has captured a location that is set.  When the
    turns are served one at a time (every sent text is processed before
    anything else happens), moreover, the date is set only while the stage
    is ['date'], no processing is pending, and every pending report has
    captured an activity as well. *)
Theorem page_further_invariants
  (host : Host)
  (resolve : option string -> Eff Coords.t)
  (fetchWeather : number -> number -> string -> Eff NASAWeatherData)
  (analyze : NASAWeatherData -> string -> string -> Eff GeminiAnalysis)
  (g : Rng) (p : Page) :
  (reachable host resolve fetchWeather analyze g p ->
   activity_known (chatState p) /\ page_located p)
  /\ (served host resolve fetchWeather analyze g p ->
      date_only_when_awaited (chatState p) /\ Forall timer_ready (timers p)).
Proof.
  split; intros H.
  - split; [eapply reachable_known | eapply reachable_located]; exact H.
  - destruct (served_ok _ _ _ _ _ _ H) as (_ & _ & Hdate & Htimers).
    split; assumption.
Qed.

Lemma page_further_invariants_witness :
  pageServed offlineHost evenDraws
    (afterDate offlineHost evenDraws "picnic" "Picnic" "Paris" "2025-07-04")
  /\ timers (afterDate offlineHost evenDraws "picnic" "Picnic" "Paris" "2025-07-04")
     = [timer_report (Some "Paris") (Some "picnic") "2025-07-04"]
  /\ Forall timer_ready
       (timers (afterDate offlineHost evenDraws "picnic" "Picnic" "Paris" "2025-07-04"))
  /\ pageReachable offlineHost evenDraws twoFollowUps
  /\ page_located twoFollowUps.
Proof.
  assert (H : pageServed offlineHost evenDraws
                (afterDate offlineHost evenDraws "picnic" "Picnic" "Paris" "2025-07-04")).
  { unfold pageServed, afterDate.
    eapply served_turn; [eapply served_turn; [eapply served_turn; [apply served_init |] |] |].
    - apply turn_quick with (emoji := "🧺"); [reflexivity | cbn; auto 10].
    - apply turn_send.
    - apply turn_send. }
  assert (H' : pageReachable offlineHost evenDraws twoFollowUps).
  { cbv beta zeta delta [twoFollowUps wiredFire].
    apply reach_fire; [| vm_compute; reflexivity].
    apply reach_fire; [| vm_compute; reflexivity].
    apply reach_fire; [| vm_compute; reflexivity].
    apply reach_send.
    apply reach_fire; [| vm_compute; reflexivity].
    apply reach_send.
    apply reach_fire; [| vm_compute; reflexivity].
    apply reach_send.
    apply reach_quick with (emoji := "🥾"); [| reflexivity | cbn; auto 10].
    apply reach_init. }
  split; [exact H |]. split; [reflexivity |].
  split; [exact (proj2 (proj2 (page_further_invariants _ _ _ _ _ _) H)) |].
  split; [exact H' |].
  exact (proj2 (proj1 (page_further_invariants _ _ _ _ _ _) H')).
Defined.

(** X16. On the page as it is wired, for a host whose services answer
    with numbers when they answer, a report never fails: in every reachable
    state, in any order of the events, whichever pending report timer
    fires, the page appends the connecting notice and then the report,
    which carries five scores in [5, 95] and the source labels, schedules
    the follow-up and leaves the conversation state alone.  The error
    message of the [catch] block is never the outcome. *)
Theorem wired_report_always_shown (host : Host) (g : Rng) (p : Page) (n : nat)
  (place activity : option string) (day : string) :
  pageReachable host g p ->
  nth_error (timers p) n = Some (timer_report place activity day) ->
  let p' := fire host (getCoordinatesFromLocation host) (getNASAWeatherData host)
              analyzeWithGemini (timer_report place activity day) (clearTimer n p) in
  exists weatherData result,
    messages p'
    = (messages p
       ++ [ {| text := reportConnecting; sender := bot; riskData := None;
               dataSources := None |};
            {| text := reportText weatherData result; sender := bot;
               riskData := Some (risks result);
               dataSources := Some (sources result) |} ])%list
    /\ risks_in_range (risks result)
    /\ timers p' = (removeTimer n (timers p) ++ [timer_followup])%list
    /\ chatState p' = chatState p.
Proof.
  intros Hreach Hnth p'.
  destruct (reachable_located _ _ _ _ _ _ Hreach) as [_ Htimers].
  apply nth_error_In in Hnth.
  rewrite Forall_forall in Htimers. specialize (Htimers _ Hnth).
  cbn in Htimers.
  destruct place as [place |]; [| contradiction].
  destruct (resolver_returns host place (random p)) as [coords Hc].
  destruct (provider_returns host (Coords.lat coords) (Coords.lon coords) day (random p))
    as (weatherData & g' & Hw).
  exists weatherData, (simulateGeminiAnalysis weatherData (or_else activity "null") day).
  assert (Hp' : p'
    = setTimeout timer_followup
        (addMessage
           (reportText weatherData
              (simulateGeminiAnalysis weatherData (or_else activity "null") day))
           bot
           (Some (risks (simulateGeminiAnalysis weatherData (or_else activity "null") day)))
           (Some (sources (simulateGeminiAnalysis weatherData (or_else activity "null") day)))
           (setRandom g' (addMessage reportConnecting bot None None (clearTimer n p))))).
  { subst p'. cbn [fire]. unfold generateRealWeatherReport, reportPipeline, JS.bind.
    cbn [random addMessage clearTimer]. rewrite Hc, Hw. reflexivity. }
  rewrite Hp'.
  cbn [chatState messages timers addMessage setRandom setTimeout clearTimer].
  split; [now rewrite <- app_assoc |].
  split; [cbn [risks simulateGeminiAnalysis]; apply forEach_in_range, baseRisks_in_range |].
  split; reflexivity.
Qed.

(** A run of the page as it is wired: hiking, "Tokyo" and a date, each
    processed by the timer of its send; then the report fires. *)
Lemma wired_report_always_shown_witness :
  pageReachable offlineHost evenDraws
    (handleSend "2025-07-04"
       (wiredFire (timer_process
                     {| stage := stage_location; eventType := Some "hiking";
                        location := None; date := None |} "Tokyo") 0
          (handleSend "Tokyo"
             (handleQuickReply offlineHost "hiking" "Hiking" (initialPage evenDraws)))))
  /\ exists p,
       p = wiredFire (timer_process
                        {| stage := stage_date; eventType := Some "hiking";
                           location := Some "Tokyo"; date := None |} "2025-07-04") 0
             (handleSend "2025-07-04"
                (wiredFire (timer_process
                              {| stage := stage_location; eventType := Some "hiking";
                                 location := None; date := None |} "Tokyo") 0
                   (handleSend "Tokyo"
                      (handleQuickReply offlineHost "hiking" "Hiking"
                         (initialPage evenDraws)))))
       /\ nth_error (timers p) 0
          = Some (timer_report (Some "Tokyo") (Some "hiking") "2025-07-04")
       /\ timers (wiredFire (timer_report (Some "Tokyo") (Some "hiking") "2025-07-04")
                    0 p)
          = [timer_followup].
Proof.
  assert (H : pageReachable offlineHost evenDraws
    (handleSend "2025-07-04"
       (wiredFire (timer_process
                     {| stage := stage_location; eventType := Some "hiking";
                        location := None; date := None |} "Tokyo") 0
          (handleSend "Tokyo"
             (handleQuickReply offlineHost "hiking" "Hiking" (initialPage evenDraws)))))).
  { cbv beta zeta delta [wiredFire].
    apply reach_send.
    apply reach_fire; [| vm_compute; reflexivity].
    apply reach_send.
    apply reach_quick with (emoji := "🥾"); [| reflexivity | cbn; auto 10].
    apply reach_init. }
  split; [exact H |].
  eexists. split; [reflexivity |].
  assert (H' : pageReachable offlineHost evenDraws
    (wiredFire (timer_process
                  {| stage := stage_date; eventType := Some "hiking";
                     location := Some "Tokyo"; date := None |} "2025-07-04") 0
       (handleSend "2025-07-04"
          (wiredFire (timer_process
                        {| stage := stage_location; eventType := Some "hiking";
                           location := None; date := None |} "Tokyo") 0
             (handleSend "Tokyo"
                (handleQuickReply offlineHost "hiking" "Hiking"
                   (initialPage evenDraws)))))))
    by (unfold wiredFire at 1; apply reach_fire; [exact H | vm_compute; reflexivity]).
  assert (Hnth : nth_error
    (timers
       (wiredFire (timer_process
                     {| stage := stage_date; eventType := Some "hiking";
                        location := Some "Tokyo"; date := None |} "2025-07-04") 0
          (handleSend "2025-07-04"
             (wiredFire (timer_process
                           {| stage := stage_location; eventType := Some "hiking";
                              location := None; date := None |} "Tokyo") 0
                (handleSend "Tokyo"
                   (handleQuickReply offlineHost "hiking" "Hiking"
                      (initialPage evenDraws))))))) 0
    = Some (timer_report (Some "Tokyo") (Some "hiking") "2025-07-04"))
    by (vm_compute; reflexivity).
  split; [exact Hnth |].
  destruct (wired_report_always_shown offlineHost evenDraws _ 0 _ _ _ H' Hnth)
    as (weatherData & result & _ & _ & Htimers & _).
  exact Htimers.
Defined.

(** The report of the wired page on a location that is set. *)
Lemma wired_report_eq (host : Host) (place : string) (activity : option string)
  (day : string) (p : Page) :
  exists weatherData g',
    fire host (getCoordinatesFromLocation host) (getNASAWeatherData host)
         analyzeWithGemini (timer_report (Some place) activity day) p
    = setTimeout timer_followup
        (addMessage
           (reportText weatherData
              (simulateGeminiAnalysis weatherData (or_else activity "null") day))
           bot
           (Some (risks (simulateGeminiAnalysis weatherData (or_else activity "null") day)))
           (Some (sources (simulateGeminiAnalysis weatherData (or_else activity "null") day)))
           (setRandom g' (addMessage reportConnecting bot None None p))).
Proof.
  destruct (resolver_returns host place (random p)) as [coords Hc].
  destruct (provider_returns host (Coords.lat coords) (Coords.lon coords) day (random p))
    as (weatherData & g' & Hw).
  exists weatherData, g'.
  cbn [fire]. unfold generateRealWeatherReport, reportPipeline, JS.bind.
  cbn [random addMessage]. rewrite Hc, Hw. reflexivity.
Qed.

(** X17. A whole conversation comes back to its start.  From the initial
    page, a quick reply, a location and a date (neither of them white space
    only), each processed before the next event, schedule one report; once
    it has fired and its follow-up after it, the conversation state is the
    initial one again, no timer is pending, and the log holds ten messages
    (the welcome, three user messages and six bot messages).  This holds
    for every host whose services, when they answer, answer with numbers;
    they may as well fail. *)
Theorem full_conversation_resets (host : Host) (g : Rng)
  (event emoji label place day : string) :
  In (event, emoji, label) eventTypes ->
  blank place = false -> blank day = false ->
  chatState (afterDate host g event label place day)
    = {| stage := stage_date; eventType := Some event; location := Some place;
         date := Some day |}
  /\ timers (afterDate host g event label place day)
     = [timer_report (Some place) (Some event) day]
  /\ chatState (afterFollowUp host g event label place day) = initialChatState
  /\ timers (afterFollowUp host g event label place day) = []
  /\ List.length (messages (afterFollowUp host g event label place day)) = 10%nat
  /\ pageServed host g (afterFollowUp host g event label place day)
  /\ pageReachable host g (afterFollowUp host g event label place day).
Proof.
  intros Hin Hplace Hday.
  assert (Hc3 : chatState (afterDate host g event label place day)
                = {| stage := stage_date; eventType := Some event;
                     location := Some place; date := Some day |})
    by (unfold afterDate, sendAndProcess; rewrite Hplace, Hday; reflexivity).
  assert (Ht3 : timers (afterDate host g event label place day)
                = [timer_report (Some place) (Some event) day])
    by (unfold afterDate, sendAndProcess; rewrite Hplace, Hday; reflexivity).
  assert (Hm3 : List.length (messages (afterDate host g event label place day)) = 7%nat)
    by (unfold afterDate, sendAndProcess; rewrite Hplace, Hday; reflexivity).
  destruct (wired_report_eq host place (Some event) day
              (clearTimer 0 (afterDate host g event label place day)))
    as (weatherData & g' & Hreport).
  fold (afterReport host g event label place day) in Hreport.
  assert (Ht4 : timers (afterReport host g event label place day) = [timer_followup])
    by (rewrite Hreport; cbn [timers setTimeout addMessage setRandom clearTimer];
        now rewrite Ht3).
  split; [exact Hc3 |]. split; [exact Ht3 |].
  split; [reflexivity |].
  split.
  { unfold afterFollowUp. cbn [fire reportFollowUp timers setChatState addMessage clearTimer].
    now rewrite Ht4. }
  split.
  { unfold afterFollowUp.
    cbn [fire reportFollowUp messages setChatState addMessage clearTimer].
    rewrite Hreport.
    cbn [messages setTimeout addMessage setRandom clearTimer].
    rewrite !length_app, Hm3. reflexivity. }
  assert (Hserved3 : pageServed host g (afterDate host g event label place day)).
  { unfold pageServed, afterDate.
    eapply served_turn; [eapply served_turn; [eapply served_turn; [apply served_init |] |] |].
    - apply turn_quick with (emoji := emoji); [reflexivity | exact Hin].
    - apply turn_send.
    - apply turn_send. }
  assert (Hserved4 : pageServed host g (afterReport host g event label place day)).
  { eapply served_turn; [exact Hserved3 |].
    apply turn_timer. now rewrite Ht3. }
  assert (Hserved5 : pageServed host g (afterFollowUp host g event label place day)).
  { eapply served_turn; [exact Hserved4 |].
    apply turn_timer. now rewrite Ht4. }
  split; [exact Hserved5 |].
  now apply served_reachable.
Qed.

Lemma full_conversation_resets_witness :
  In ("picnic", "🧺", "Picnic") eventTypes
  /\ blank "Paris" = false /\ blank "2025-07-04" = false
  /\ chatState (afterFollowUp liveHost evenDraws "picnic" "Picnic" "Paris" "2025-07-04")
     = initialChatState
  /\ List.length
       (messages (afterFollowUp liveHost evenDraws "picnic" "Picnic" "Paris" "2025-07-04"))
     = 10%nat.
Proof.
  assert (Hin : In ("picnic", "🧺", "Picnic") eventTypes) by (cbn; auto 10).
  split; [exact Hin |]. split; [reflexivity |]. split; [reflexivity |].
  destruct (full_conversation_resets liveHost evenDraws "picnic" "🧺" "Picnic" "Paris"
              "2025-07-04" Hin eq_refl eq_refl) as (_ & _ & Hc & _ & Hm & _).
  split; [exact Hc | exact Hm].
Defined.

(** ** The message log *)

Lemma processMessage_messages (host : Host) (render : ChatState) (message : string)
  (p : Page) :
  exists reply,
    messages (processMessage host render message p) = (messages p ++ [reply])%list.
Proof.
  unfold processMessage. destruct (stage render).
  - destruct (matchEvent (toLowerCase host message)) as [[event keywords] |];
      eexists; reflexivity.
  - eexists; reflexivity.
  - eexists; reflexivity.
Qed.

(** X18. The log only grows: every step of the page other than a new chat
    keeps the messages that are there, in their order, and appends at most
    two; a new chat puts the welcome message back. *)
Theorem messages_append_only
  (host : Host)
  (resolve : option string -> Eff Coords.t)
  (fetchWeather : number -> number -> string -> Eff NASAWeatherData)
  (analyze : NASAWeatherData -> string -> string -> Eff GeminiAnalysis)
  (p p' : Page) :
  step host resolve fetchWeather analyze p p' ->
  (exists added,
      messages p' = (messages p ++ added)%list /\ (List.length added <= 2)%nat)
  \/ (p' = startNewChat p /\ messages p' = initialMessages).
Proof.
  intros Hstep.
  destruct Hstep as [input p | value emoji label p Hshown Hin | p | n t p Hnth].
  - left. unfold handleSend. destruct (blank input).
    + exists []. split; [now rewrite app_nil_r | cbn; lia].
    + cbn [messages setTimeout addMessage].
      eexists. split; [reflexivity | cbn; lia].
  - left. unfold handleQuickReply, addRandomResponse, draw.
    cbn [messages random addMessage setChatState setRandom]. rewrite <- app_assoc.
    eexists. split; [reflexivity | cbn; lia].
  - right. split; reflexivity.
  - left. destruct t as [render message | location eventType date |]; cbn [fire].
    + destruct (processMessage_messages host render message (clearTimer n p))
        as [reply Hreply].
      rewrite Hreply. cbn [messages clearTimer].
      eexists. split; [reflexivity | cbn; lia].
    + unfold generateRealWeatherReport.
      destruct (reportPipeline _ _ _ _ _ _ _) as [[[weatherData result] | err] g'];
        cbn [messages setTimeout addMessage setRandom clearTimer];
        rewrite <- app_assoc; eexists; (split; [reflexivity | cbn; lia]).
    + unfold reportFollowUp. cbn [messages setChatState addMessage clearTimer].
      eexists. split; [reflexivity | cbn; lia].
Qed.

Lemma messages_append_only_witness :
  pageStep offlineHost dateProcessed shownReport
  /\ exists added,
       messages shownReport = (messages dateProcessed ++ added)%list
       /\ List.length added = 2%nat.
Proof.
  assert (H : pageStep offlineHost dateProcessed shownReport)
    by (apply step_timer; reflexivity).
  split; [exact H |].
  destruct (messages_append_only _ _ _ _ _ _ H) as [(added & Hadded & _) | [_ Hnew]];
    [| discriminate Hnew].
  exists added. split; [exact Hadded |].
  apply (f_equal (@List.length Message)) in Hadded.
  rewrite length_app in Hadded. cbn in Hadded. lia.
Defined.

Lemma adjustments_only_raise_witness :
  lookup eventAdjustments "knitting" = None
  /\ calculateRisksFromRealData mildDay "knitting" = baseRisks mildDay.
Proof.
  split; [reflexivity |].
  exact (proj2 (proj2 (adjustments_only_raise mildDay "knitting" key_hot)) eq_refl).
Defined.

Lemma resolver_rejects_only_null_witness :
  geocodingUnavailable offlineHost "null"
  /\ exists err, fst (getCoordinatesFromLocation offlineHost None evenDraws) = Throw err.
Proof.
  split; [exact I |].
  exact (proj2 (resolver_rejects_only_null offlineHost None evenDraws) (conj eq_refl I)).
Defined.
